(** * django-gencal: the month grid built by the [gencal] template tag

    A shallow embedding of [templatetags/gencal.py] (function [gencal] and its
    three local helpers) together with the part of Python's [datetime] and
    [calendar] modules the function calls, and the properties of the grid
    that the specification states. *)

From stdpp Require Import gmap strings list.
From Stdlib Require Import ZArith Lia.

Local Open Scope Z_scope.

(** ** Exceptions and fallible results *)

(** The Python exceptions that can leave [gencal].  In Python
    [calendar.IllegalMonthError] is a subclass of [ValueError]; it is kept
    apart here so that the rejection of a month outside 1..12 can be told
    from the other range errors of [datetime.date]. *)
Inductive exn : Set :=
| IllegalMonthError
| ValueError
| OverflowError
| AssertionError
| KeyError
| AttributeError.

Inductive result (A : Type) : Type :=
| Ok (a : A)
| Err (e : exn).
Arguments Ok {A} a.
Arguments Err {A} e.

#[global] Instance result_ret : MRet result := λ A, Ok.
#[global] Instance result_bind : MBind result :=
  λ A B f r, match r with Ok a => f a | Err e => Err e end.

(** [assert cond] *)
Definition py_assert (cond : bool) : result unit :=
  if cond then Ok tt else Err AssertionError.

(** Running a fallible function over a list from left to right, stopping at
    the first exception. *)
Fixpoint mapM {A B : Type} (f : A → result B) (l : list A) : result (list B) :=
  match l with
  | [] => Ok []
  | x :: l' => y ← f x; ys ← mapM f l'; Ok (y :: ys)
  end.

(** [range(n)] *)
Fixpoint range_from (start : Z) (len : nat) : list Z :=
  match len with
  | O => []
  | S k => start :: range_from (start + 1) k
  end.

Definition py_range (n : Z) : list Z := range_from 0 (Z.to_nat n).

(** ** Python's [datetime.date]

    The calendar arithmetic follows the reference implementation of the
    standard library ([Lib/datetime.py]; the C module computes the same
    functions).  The constructor is the one of the C module, the only one of
    Python 2, which converts its arguments to C [int]s before it checks
    them. *)
Module Datetime.

Record date : Set := mkdate { year : Z; month : Z; day : Z }.

Definition MINYEAR : Z := 1.
Definition MAXYEAR : Z := 9999.
(** [date.max.toordinal()] *)
Definition _MAXORDINAL : Z := 3652059.

Definition _DAYS_IN_MONTH : list Z :=
  [-1; 31; 28; 31; 30; 31; 30; 31; 31; 30; 31; 30; 31].
Definition _DAYS_BEFORE_MONTH : list Z :=
  [-1; 0; 31; 59; 90; 120; 151; 181; 212; 243; 273; 304; 334].

(** [table[i]] for the two tables above, which are only indexed by a month
    number or by the month estimate of [_ord2ymd]. *)
Definition index (table : list Z) (i : Z) : Z := nth (Z.to_nat i) table 0.

Definition _is_leap (year : Z) : bool :=
  (year mod 4 =? 0) && (negb (year mod 100 =? 0) || (year mod 400 =? 0)).

Definition _days_before_year (year : Z) : Z :=
  let y := year - 1 in
  y * 365 + y / 4 - y / 100 + y / 400.

Definition _days_in_month (year month : Z) : Z :=
  if (month =? 2) && _is_leap year then 29 else index _DAYS_IN_MONTH month.

Definition _days_before_month (year month : Z) : Z :=
  index _DAYS_BEFORE_MONTH month
  + (if (2 <? month) && _is_leap year then 1 else 0).

Definition _ymd2ord (year month day : Z) : Z :=
  _days_before_year year + _days_before_month year month + day.

Definition _DI400Y : Z := 146097.
Definition _DI100Y : Z := 36524.
Definition _DI4Y : Z := 1461.

Definition _ord2ymd (n : Z) : Z * Z * Z :=
  let n := n - 1 in
  let n400 := n / _DI400Y in
  let n := n mod _DI400Y in
  let year := n400 * 400 + 1 in
  let n100 := n / _DI100Y in
  let n := n mod _DI100Y in
  let n4 := n / _DI4Y in
  let n := n mod _DI4Y in
  let n1 := n / 365 in
  let n := n mod 365 in
  let year := year + (n100 * 100 + n4 * 4 + n1) in
  if (n1 =? 4) || (n100 =? 4) then (year - 1, 12, 31)
  else
    let leapyear := (n1 =? 3) && (negb (n4 =? 24) || (n100 =? 3)) in
    let month := Z.shiftr (n + 50) 5 in
    let preceding :=
      index _DAYS_BEFORE_MONTH month
      + (if (2 <? month) && leapyear then 1 else 0) in
    if n <? preceding then
      let month := month - 1 in
      let preceding :=
        preceding
        - (index _DAYS_IN_MONTH month
           + (if (month =? 2) && leapyear then 1 else 0)) in
      (year, month, n - preceding + 1)
    else (year, month, n - preceding + 1).

(** The values of a C [int].  The constructor of [datetime.date] is the one
    of the C module: it first converts its three arguments to C [int]s, and
    an argument that does not fit raises [OverflowError]. *)
Definition INT_MIN : Z := -2147483648.
Definition INT_MAX : Z := 2147483647.
Definition c_int (n : Z) : bool := (INT_MIN <=? n) && (n <=? INT_MAX).

(** [datetime.date(year, month, day)]: the constructor converts its
    arguments, then checks the year, the month and the day, in this order. *)
Definition new (year month day : Z) : result date :=
  if negb (c_int year && c_int month && c_int day) then Err OverflowError
  else if negb ((MINYEAR <=? year) && (year <=? MAXYEAR)) then Err ValueError
  else if negb ((1 <=? month) && (month <=? 12)) then Err ValueError
  else if negb ((1 <=? day) && (day <=? _days_in_month year month))
  then Err ValueError
  else Ok (mkdate year month day).

Definition toordinal (d : date) : Z := _ymd2ord (year d) (month d) (day d).

Definition fromordinal (n : Z) : date :=
  let '(y, m, d) := _ord2ymd n in mkdate y m d.

(** [d.weekday()]: Monday is 0, Sunday is 6. *)
Definition weekday (d : date) : Z := (toordinal d + 6) mod 7.

(** [d + datetime.timedelta(days)] *)
Definition add (d : date) (days : Z) : result date :=
  let o := toordinal d + days in
  if (0 <? o) && (o <=? _MAXORDINAL) then Ok (fromordinal o)
  else Err OverflowError.

(** [d - datetime.timedelta(days)] *)
Definition sub (d : date) (days : Z) : result date := add d (- days).

#[global] Instance date_eq_dec : EqDecision date.
Proof. solve_decision. Defined.

Definition date_fields (d : date) : Z * Z * Z := (year d, month d, day d).
Definition date_of_fields (t : Z * Z * Z) : date := mkdate t.1.1 t.1.2 t.2.

Definition date_of_fields_fields (d : date) :
  date_of_fields (date_fields d) = d :=
  match d with mkdate _ _ _ => eq_refl end.

#[global] Instance date_countable : Countable date :=
  inj_countable' date_fields date_of_fields date_of_fields_fields.

End Datetime.

(** ** Python's [calendar] module (as of Python 2, which the source targets) *)
Module Calendar.

Definition February : Z := 2.

Definition mdays : list Z :=
  [0; 31; 28; 31; 30; 31; 30; 31; 31; 30; 31; 30; 31].

Definition isleap (year : Z) : bool :=
  (year mod 4 =? 0) && (negb (year mod 100 =? 0) || (year mod 400 =? 0)).

(** [calendar.weekday(year, month, day)] *)
Definition weekday (year month day : Z) : result Z :=
  d ← Datetime.new year month day; Ok (Datetime.weekday d).

(** [calendar.monthrange(year, month)]: weekday of the first day of the
    month and number of days in the month. *)
Definition monthrange (year month : Z) : result (Z * Z) :=
  if negb ((1 <=? month) && (month <=? 12)) then Err IllegalMonthError
  else
    day1 ← weekday year month 1;
    let ndays :=
      Datetime.index mdays month
      + (if (month =? February) && isleap year then 1 else 0) in
    Ok (day1, ndays).

(** [calendar.weekheader(2).split(' ')] with the default first weekday and
    the C locale. *)
Definition week_headers : list string :=
  ["Mo"; "Tu"; "We"; "Th"; "Fr"; "Sa"; "Su"]%string.

End Calendar.

(** ** The template tag's function [gencal] *)
Module Gencal.

(** The Python values that reach [gencal]: the [date] argument, and the
    values stored in the dictionaries of [cal_items].  [PyDate] and
    [PyDateTime] stand for any object with [year], [month] and [day]
    attributes; the fields are not assumed to form a date of the calendar,
    the code re-builds a [datetime.date] from them. *)
Inductive pyval : Set :=
| PyNone
| PyStr (s : string)
| PyInt (n : Z)
| PyDate (d : Datetime.date)
| PyDateTime (d : Datetime.date) (hour minute second microsecond : Z).

(** The [year], [month] and [day] attributes of a value, when it has them. *)
Definition as_date (v : pyval) : option Datetime.date :=
  match v with
  | PyDate d | PyDateTime d _ _ _ _ => Some d
  | _ => None
  end.

(** [v.year], [v.month], [v.day] *)
Definition getattr (field : Datetime.date → Z) (v : pyval) : result Z :=
  match as_date v with
  | Some d => Ok (field d)
  | None => Err AttributeError
  end.

(** [event[key]] on a dictionary *)
Definition getitem (event : gmap string pyval) (key : string) : result pyval :=
  match event !! key with
  | Some v => Ok v
  | None => Err KeyError
  end.

(** The dictionary [{'title': .., 'url': .., 'class': .., 'timestamp': ..}]
    stored for an event. *)
Record cal_event : Set := mk_cal_event {
  title : pyval;
  url : pyval;
  class : pyval;
  timestamp : pyval
}.

(** The dictionary [{'day': .., 'event': .., 'in_month': ..}] of a cell. *)
Record cal_day : Set := mk_cal_day {
  day : Datetime.date;
  event : list cal_event;
  in_month : bool
}.

(** The dictionary returned by [gencal]. *)
Record context : Set := mk_context {
  month_cal : list (list cal_day);
  headers : list string;
  date : pyval;
  prev_date : Datetime.date;
  next_date : Datetime.date
}.

(** Local function [get_iterable_days], up to the computation of
    [total_days_in_calendar]: the values of [first_day_of_calendar],
    [head_days], [days_in_month], [tail_days] and [total_days_in_calendar]. *)
Definition get_iterable_days_extent (year month : Z)
  : result (Datetime.date * Z * Z * Z * Z) :=
  month_range ← Calendar.monthrange year month;
  let days_in_month := month_range.2 in
  first_day_of_month ← Datetime.new year month 1;
  last_day_of_month ← Datetime.new year month days_in_month;
  first_day_of_calendar ←
    Datetime.sub first_day_of_month (Datetime.weekday first_day_of_month);
  let head_days := Datetime.weekday first_day_of_month in
  let tail_days := 6 - Datetime.weekday last_day_of_month in
  let total_days_in_calendar := head_days + days_in_month + tail_days in
  Ok (first_day_of_calendar, head_days, days_in_month, tail_days,
      total_days_in_calendar).

(** Local generator [get_iterable_days], run to exhaustion: the dates it
    yields, or the exception it raises.  The [for] loop of [gencal] is its
    only consumer and only updates local variables, so an exception raised
    between two [yield]s is the exception of the whole loop. *)
Definition get_iterable_days (year month : Z) : result (list Datetime.date) :=
  '(first_day_of_calendar, _, _, _, total_days_in_calendar) ←
    get_iterable_days_extent year month;
  _ ← py_assert (total_days_in_calendar mod 7 =? 0);
  mapM (λ i, Datetime.add first_day_of_calendar i)
       (py_range total_days_in_calendar).

(** Local function [get_prev_next_months]. *)
Definition get_prev_next_months (year month : Z)
  : result (Datetime.date * Datetime.date) :=
  let lastmonth := month - 1 in
  let nextmonth := month + 1 in
  let lastyear := year in
  let nextyear := year in
  let '(lastmonth, lastyear, nextmonth, nextyear) :=
    if lastmonth =? 0 then (12, lastyear - 1, nextmonth, nextyear)
    else if nextmonth =? 13 then (lastmonth, lastyear, 1, nextyear + 1)
    else (lastmonth, lastyear, nextmonth, nextyear) in
  prev ← Datetime.new lastyear lastmonth 1;
  next ← Datetime.new nextyear nextmonth 1;
  Ok (prev, next).

(** The body of the loop of [get_events_by_day] for one event: the key it
    is filed under and the dictionary that is appended. *)
Definition group_event (event : gmap string pyval)
  : result (Datetime.date * cal_event) :=
  d ← getitem event "day";
  y ← getattr Datetime.year d;
  m ← getattr Datetime.month d;
  dd ← getattr Datetime.day d;
  d ← Datetime.new y m dd;
  t ← getitem event "title";
  u ← getitem event "url";
  c ← getitem event "class";
  ts ← getitem event "day";
  Ok (d, mk_cal_event t u c ts).

(** [events_by_day[d]] on the [defaultdict(list)]: a date without events
    reads as the empty list (that the dictionary then stores this list under
    the date changes no later read). *)
Definition events_on (events_by_day : gmap Datetime.date (list cal_event))
    (d : Datetime.date) : list cal_event :=
  default [] (events_by_day !! d).

Fixpoint get_events_by_day_loop
    (events_by_day : gmap Datetime.date (list cal_event))
    (cal_items : list (gmap string pyval))
  : result (gmap Datetime.date (list cal_event)) :=
  match cal_items with
  | [] => Ok events_by_day
  | event :: cal_items' =>
      '(d, e) ← group_event event;
      get_events_by_day_loop
        (<[d := events_on events_by_day d ++ [e]]> events_by_day) cal_items'
  end.

(** Local function [get_events_by_day]. *)
Definition get_events_by_day (cal_items : list (gmap string pyval))
  : result (gmap Datetime.date (list cal_event)) :=
  get_events_by_day_loop ∅ cal_items.

(** One iteration of the loop over the days: the pair is [(week, month_cal)]. *)
Definition gencal_step (events_by_day : gmap Datetime.date (list cal_event))
    (month : Z) (st : list cal_day * list (list cal_day)) (d : Datetime.date)
  : list cal_day * list (list cal_day) :=
  let '(week, month_cal) := st in
  let cal_day :=
    mk_cal_day d (events_on events_by_day d) (Datetime.month d =? month) in
  let week := week ++ [cal_day] in
  if Datetime.weekday d =? 6 then ([], month_cal ++ [week])
  else (week, month_cal).

(** [gencal(date, cal_items)].  Both arguments are passed by the caller (the
    defaults of the source are computed once, when the module is loaded). *)
Definition gencal (date : pyval) (cal_items : list (gmap string pyval))
  : result context :=
  year ← getattr Datetime.year date;
  month ← getattr Datetime.month date;
  events_by_day ← get_events_by_day cal_items;
  days ← get_iterable_days year month;
  let '(week, month_cal) :=
    fold_left (gencal_step events_by_day month) days ([], []) in
  let week_headers := Calendar.week_headers in
  '(prev_date, next_date) ← get_prev_next_months year month;
  Ok (mk_context month_cal week_headers date prev_date next_date).

End Gencal.

(** ** Vocabulary of the proofs and of the specification *)

Import Datetime.

(** *** The calendar *)

(** [f] holds of the [len] integers from [start] on. *)
Fixpoint all_from (f : Z → bool) (start : Z) (len : nat) : bool :=
  match len with
  | O => true
  | S k => f start && all_from f (start + 1) k
  end.

(** The last part of [_ord2ymd]: month and day from the leap flag and the
    zero-based day of the year. *)
Definition ord2md (leapyear : bool) (n : Z) : Z * Z :=
  let month := Z.shiftr (n + 50) 5 in
  let preceding :=
    index _DAYS_BEFORE_MONTH month
    + (if (2 <? month) && leapyear then 1 else 0) in
  if n <? preceding then
    let month := month - 1 in
    let preceding :=
      preceding
      - (index _DAYS_IN_MONTH month
         + (if (month =? 2) && leapyear then 1 else 0)) in
    (month, n - preceding + 1)
  else (month, n - preceding + 1).

(** [_days_in_month] and [_days_before_month] as functions of the leap flag
    of the year. *)
Definition dim_leap (leap : bool) (month : Z) : Z :=
  if (month =? 2) && leap then 29 else index _DAYS_IN_MONTH month.

Definition dbm_leap (leap : bool) (month : Z) : Z :=
  index _DAYS_BEFORE_MONTH month + (if (2 <? month) && leap then 1 else 0).

(** [ord2md] finds the day [d] of month [m] again; checked by computation
    over the months of a leap year and of a common year. *)
Definition check_md (leap : bool) (m d : Z) : bool :=
  if d <=? dim_leap leap m then
    let '(m', d') := ord2md leap (dbm_leap leap m + d - 1) in
    (m' =? m) && (d' =? d)
  else true.

Definition check_months (leap : bool) : bool :=
  all_from (λ m, all_from (check_md leap m) 1 31) 1 12.

(** A year written with the number of whole 400-year, 100-year and 4-year
    cycles and of single years before it, and its leap flag. *)
Definition year_of_digits (a b c e : Z) : Z :=
  400 * a + 100 * b + 4 * c + e + 1.
Definition leap_of_digits (b c e : Z) : bool :=
  (e =? 3) && (negb (c =? 24) || (b =? 3)).

(** The month before and the month after month [m] of year [y]. *)
Definition prev_month_of (y m : Z) : Z * Z :=
  if m =? 1 then (y - 1, 12) else (y, m - 1).
Definition next_month_of (y m : Z) : Z * Z :=
  if m =? 12 then (y + 1, 1) else (y, m + 1).

(** The date [k] days after the first of month [m] of year [y], for an
    offset that stays within the previous, the given or the next month. *)
Definition day_at (y m k : Z) : date :=
  if k <? 0 then
    let '(py, pm) := prev_month_of y m in
    mkdate py pm (_days_in_month py pm + k + 1)
  else if k <? _days_in_month y m then mkdate y m (k + 1)
  else
    let '(ny, nm) := next_month_of y m in
    mkdate ny nm (k - _days_in_month y m + 1).

(** A date is well formed when its fields are those of a day of the
    proleptic Gregorian calendar (the year is not bounded here). *)
Definition wf_date (d : date) : Prop :=
  1 ≤ month d ≤ 12 ∧ 1 ≤ day d ≤ _days_in_month (year d) (month d).

(** *** Months and their grid *)

(** The months of [datetime.date]. *)
Definition valid_year_month (y m : Z) : Prop :=
  MINYEAR ≤ y ≤ MAXYEAR ∧ 1 ≤ m ≤ 12.

(** The values of [head_days], [tail_days] and [total_days_in_calendar] in
    [get_iterable_days]. *)
Definition head_days (y m : Z) : Z := weekday (mkdate y m 1).
Definition tail_days (y m : Z) : Z :=
  6 - weekday (mkdate y m (_days_in_month y m)).
Definition total_days_in_calendar (y m : Z) : Z :=
  head_days y m + _days_in_month y m + tail_days y m.

(** The dates of the grid of month [m] of year [y]: the [i]-th is the
    first of the month moved by [i - head_days] days. *)
Definition grid_days (y m : Z) : list date :=
  map (λ i, day_at y m (i - head_days y m))
      (py_range (total_days_in_calendar y m)).

Import Gencal.

(** *** Cells, rows and events *)

(** The cell built for a day by the loop of [gencal]. *)
Definition mk_cell (events_by_day : gmap Datetime.date (list cal_event))
    (month : Z) (d : Datetime.date) : cal_day :=
  mk_cal_day d (events_on events_by_day d) (Datetime.month d =? month).

(** [month_cal] when the loop of [gencal] has run over [days]. *)
Definition month_cal_of (events_by_day : gmap Datetime.date (list cal_event))
    (month : Z) (days : list Datetime.date) : list (list cal_day) :=
  (fold_left (gencal_step events_by_day month) days ([], [])).2.

(** A week row: seven cells, Monday first through Sunday. *)
Definition week_row (w : list cal_day) : Prop :=
  map (λ c, Datetime.weekday (Gencal.day c)) w = [0; 1; 2; 3; 4; 5; 6].

(** The date an input event is filed under: the [year], [month] and [day]
    attributes of its ['day'] value. *)
Definition event_key (e : gmap string pyval) : option Datetime.date :=
  v ← e !! "day"; as_date v.

(** The dictionary stored for an input event. *)
Definition grouped (e : gmap string pyval) : option cal_event :=
  t ← e !! "title"; u ← e !! "url"; c ← e !! "class"; ts ← e !! "day";
  Some (mk_cal_event t u c ts).

(** The dictionaries of the events of [cal_items] dated [d], in input order. *)
Definition events_for (d : Datetime.date) (cal_items : list (gmap string pyval))
  : list cal_event :=
  omap (λ e, if decide (event_key e = Some d) then grouped e else None)
       cal_items.

(** A date that [datetime.date] accepts. *)
Definition valid_date (d : Datetime.date) : Prop :=
  MINYEAR ≤ Datetime.year d ≤ MAXYEAR ∧ wf_date d.

(** An event [get_events_by_day] accepts: the four keys are present and the
    ['day'] value has the attributes of a valid date. *)
Definition well_formed_event (e : gmap string pyval) : Prop :=
  (∃ d, event_key e = Some d ∧ valid_date d) ∧ is_Some (grouped e).

(** The exceptions [get_events_by_day] raises on a malformed event: a missing
    key, a ['day'] value without the attributes of a date, and the two
    exceptions of the constructor of [datetime.date]. *)
Definition event_error (x : exn) : Prop :=
  x = KeyError ∨ x = AttributeError ∨ x = ValueError ∨ x = OverflowError.

(** The first day of a month given as a pair (year, month). *)
Definition anchor (ym : Z * Z) : Datetime.date := mkdate ym.1 ym.2 1.

(** The months for which [gencal] returns: those of [datetime.date] whose
    previous and next months are months of [datetime.date] too. *)
Definition supported (y m : Z) : Prop :=
  valid_year_month y m ∧ (y, m) ≠ (1, 1) ∧ (y, m) ≠ (9999, 12).

(** The dictionary [gencal] returns for the month of [d]. *)
Definition gencal_context (date : pyval) (d : Datetime.date)
    (events_by_day : gmap Datetime.date (list cal_event)) : context :=
  let y := Datetime.year d in
  let m := Datetime.month d in
  mk_context (month_cal_of events_by_day m (grid_days y m))
             Calendar.week_headers date
             (anchor (prev_month_of y m)) (anchor (next_month_of y m)).

#[global] Instance valid_year_month_dec y m : Decision (valid_year_month y m).
Proof. unfold valid_year_month. apply _. Defined.

(** *** What the grid covers *)

(** The cells of the grid, row after row. *)
Definition cells (out : context) : list cal_day := concat (month_cal out).

(** The order of [datetime.date] values: that of (year, month, day). *)
Definition date_lt (d1 d2 : Datetime.date) : Prop :=
  year d1 < year d2
  ∨ (year d1 = year d2
     ∧ (month d1 < month d2
        ∨ (month d1 = month d2 ∧ Datetime.day d1 < Datetime.day d2))).

Definition date_le (d1 d2 : Datetime.date) : Prop := date_lt d1 d2 ∨ d1 = d2.

(** Where a date of the grid of month [m] of year [y] may lie: in the month
    itself, among the last six days of the month before, or among the first
    six days of the month after. *)
Definition in_target_month (y m : Z) (d : Datetime.date) : Prop :=
  (year d, month d) = (y, m) ∧ 1 ≤ Datetime.day d ≤ _days_in_month y m.

Definition in_leading_pad (y m : Z) (d : Datetime.date) : Prop :=
  (year d, month d) = prev_month_of y m
  ∧ _days_in_month (year d) (month d) - 6 < Datetime.day d
    ≤ _days_in_month (year d) (month d).

Definition in_trailing_pad (y m : Z) (d : Datetime.date) : Prop :=
  (year d, month d) = next_month_of y m ∧ 1 ≤ Datetime.day d ≤ 6.

(** The dates [ds] cover month [m] of year [y]: they start at most at the
    first of the month, end at least at its last day, increase strictly,
    hold each day of the month at exactly one index, and hold nothing but
    days of the month and padding days of the two adjacent months. *)
Definition covers_month (y m : Z) (ds : list Datetime.date) : Prop :=
  (∃ first, head ds = Some first ∧ date_le first (mkdate y m 1))
  ∧ (∃ final, last ds = Some final
       ∧ date_le (mkdate y m (_days_in_month y m)) final)
  ∧ (∀ (i j : nat) d1 d2,
       ds !! i = Some d1 → ds !! j = Some d2 → (i < j)%nat → date_lt d1 d2)
  ∧ (∀ k, 1 ≤ k ≤ _days_in_month y m →
       ∃ i : nat, ds !! i = Some (mkdate y m k)
         ∧ ∀ j : nat, ds !! j = Some (mkdate y m k) → j = i)
  ∧ (∀ c, c ∈ ds →
       in_target_month y m c ∨ in_leading_pad y m c ∨ in_trailing_pad y m c).

(** The dates within the grid of month [m] of year [y], by their distance
    to the first of the month: from [head_days] days before it, the date of
    [first_day_of_calendar], to the last of the [tail_days] days after the
    month. *)
Definition in_grid (y m : Z) (d : Datetime.date) : Prop :=
  wf_date d
  ∧ - head_days y m ≤ toordinal d - toordinal (mkdate y m 1)
    < _days_in_month y m + tail_days y m.

(** *** Sample events *)

(** The concert of the docstring of [gencal], at 14:00. *)
Definition concert : gmap string pyval :=
  {[ "day" := PyDateTime (mkdate 2008 1 30) 14 0 0 0;
     "title" := PyStr "Concert";
     "url" := PyStr "/foo/2";
     "class" := PyStr "concert" ]}.

(** An event of March 2008. *)
Definition barbecue : gmap string pyval :=
  {[ "day" := PyDate (mkdate 2008 3 15);
     "title" := PyStr "BBQ";
     "url" := PyNone;
     "class" := PyStr "restaurant" ]}.

(** A second event of 2008-01-30, at 10:30. *)
Definition matinee : gmap string pyval :=
  {[ "day" := PyDateTime (mkdate 2008 1 30) 10 30 0 0;
     "title" := PyStr "Matinee";
     "url" := PyStr "/foo/3";
     "class" := PyStr "concert" ]}.

(** *** Events that are not shown *)

(** Two groupings that file the same events under every date but [k], and
    two runs of [get_events_by_day] that end alike up to [k]. *)
Definition agree_except (k : Datetime.date)
    (a b : gmap Datetime.date (list cal_event)) : Prop :=
  ∀ d, d ≠ k → events_on a d = events_on b d.

Definition same_outcome (k : Datetime.date)
    (r1 r2 : result (gmap Datetime.date (list cal_event))) : Prop :=
  match r1, r2 with
  | Ok a, Ok b => agree_except k a b
  | Err x, Err y => x = y
  | _, _ => False
  end.

(** *** The layout of the grid, and the events it shows *)

(** The days of month [m] of year [y], and the padding before and after. *)
Definition month_days (y m : Z) : list Datetime.date :=
  map (mkdate y m) (range_from 1 (Z.to_nat (_days_in_month y m))).

Definition leading_pad (y m : Z) : list Datetime.date :=
  map (day_at y m) (range_from (- head_days y m) (Z.to_nat (head_days y m))).

Definition trailing_pad (y m : Z) : list Datetime.date :=
  map (day_at y m)
      (range_from (_days_in_month y m) (Z.to_nat (tail_days y m))).

(** An event whose date is one of [days]. *)
Definition dated_in (days : list Datetime.date) (e : gmap string pyval)
  : Prop :=
  match event_key e with
  | Some d => d ∈ days
  | None => False
  end.

#[global] Instance dated_in_dec days e : Decision (dated_in days e).
Proof. unfold dated_in. destruct (event_key e); apply _. Defined.

(** ** The template tag [simple_gencal] and its node *)
Module Tag.

(** The exceptions of the tag: those of the template engine, [IndexError],
    the Python exceptions of [gencal], and whatever the framework raises
    (a missing variable, a missing template, a database error). *)
Inductive tag_exn : Set :=
| TemplateSyntaxError
| IndexError
| Python (e : exn)
| Framework (name : string).

Inductive tresult (A : Type) : Type :=
| TOk (a : A)
| TErr (e : tag_exn).
Arguments TOk {A} a.
Arguments TErr {A} e.

#[global] Instance tresult_ret : MRet tresult := λ A, TOk.
#[global] Instance tresult_bind : MBind tresult :=
  λ A B f r, match r with TOk a => f a | TErr e => TErr e end.

(** An exception of [gencal] leaving the tag. *)
Definition lift {A} (r : result A) : tresult A :=
  match r with Ok a => TOk a | Err e => TErr (Python e) end.

Fixpoint tmapM {A B : Type} (f : A → tresult B) (l : list A)
  : tresult (list B) :=
  match l with
  | [] => TOk []
  | x :: l' => y ← f x; ys ← tmapM f l'; TOk (y :: ys)
  end.

(** *** Strings

    Strings are Python 2 byte strings holding ASCII text. *)

(** [s.split(sep)] for a separator of one character: the pieces between the
    occurrences of [sep], empty pieces included. *)
Fixpoint str_split_on (sep : Ascii.ascii) (s : string) : list string :=
  match s with
  | EmptyString => [EmptyString]
  | String c s' =>
      if Ascii.eqb c sep then EmptyString :: str_split_on sep s'
      else
        match str_split_on sep s' with
        | w :: ws => String c w :: ws
        | [] => [String c EmptyString]
        end
  end.

(** The character ['.']. *)
Definition dot : Ascii.ascii := Ascii.ascii_of_nat 46.

(** [c.lower()] and [s.lower()]: the letters A to Z are changed, every
    other byte is kept. *)
Definition ascii_lower (c : Ascii.ascii) : Ascii.ascii :=
  let n := Ascii.nat_of_ascii c in
  if ((65 <=? n) && (n <=? 90))%nat then Ascii.ascii_of_nat (n + 32) else c.

Fixpoint str_lower (s : string) : string :=
  match s with
  | EmptyString => EmptyString
  | String c s' => String (ascii_lower c) (str_lower s')
  end.

(** *** Lists *)

(** [l[i]], with Python's negative indices and [IndexError]. *)
Definition py_index {A} (l : list A) (i : Z) : tresult A :=
  let n := Z.of_nat (length l) in
  let j := if i <? 0 then i + n else i in
  if (0 <=? j) && (j <? n) then
    match l !! Z.to_nat j with
    | Some x => TOk x
    | None => TErr IndexError
    end
  else TErr IndexError.

(** [any(f(i) for i in l)]: stops at the first true value. *)
Fixpoint py_any (f : Z → tresult bool) (l : list Z) : tresult bool :=
  match l with
  | [] => TOk false
  | i :: l' =>
      match f i with
      | TOk true => TOk true
      | TOk false => py_any f l'
      | TErr e => TErr e
      end
  end.

(** *** The parser of the tag *)

Definition keywords : list string := ["for"; "on"; "in"; "with"]%string.

(** [keywords[i] != bits[2 * i + 1].lower()] *)
Definition keyword_mismatch (bits : list string) (i : Z) : tresult bool :=
  k ← py_index keywords i;
  b ← py_index bits (2 * i + 1);
  TOk (negb (String.eqb k (str_lower b))).

(** The [try] block of [simple_gencal]: [date_obj] and [template] after it. *)
Definition optional_args (bits : list string) (date_obj template : string)
  : tresult (string * string) :=
  match py_index bits 6 with
  | TOk date_obj =>
      match py_index bits 8 with
      | TOk template => TOk (date_obj, template)
      | TErr IndexError => TOk (date_obj, template)
      | TErr e => TErr e
      end
  | TErr IndexError => TOk (date_obj, template)
  | TErr e => TErr e
  end.

(** [simple_gencal] from [bits] on, up to the call of the constructor of the
    node: the four arguments of that call. *)
Definition simple_gencal_args (bits : list string)
  : tresult (string * string * string * string) :=
  let iterations :=
    Z.min (Z.of_nat (length keywords)) (Z.of_nat (length bits) / 2) in
  py_any (keyword_mismatch bits) (py_range iterations) ≫= λ mismatch : bool,
  if mismatch then TErr TemplateSyntaxError
  else if negb (bool_decide (Z.of_nat (length bits) ∈ [5; 7; 9]))
  then TErr TemplateSyntaxError
  else
    model ← py_index bits 2;
    field ← py_index bits 4;
    '(date_obj, template) ←
      optional_args bits "date" "gencal/gencal.html";
    TOk (model, field, date_obj, template).

(** *** The framework *)

(** A row of the event model: its attributes, and what [__unicode__()] and
    [get_absolute_url()] give. *)
Record model_instance : Type := mk_instance {
  instance_attrs : gmap string Gencal.pyval;
  instance_unicode : tresult Gencal.pyval;
  instance_get_absolute_url : tresult Gencal.pyval
}.

(** What the code uses of Django: [get_model], [Variable] and its
    [resolve], the [filter] of the default manager of a model, and
    [get_template(name).render(Context(d))]. *)
Class Django : Type := {
  model_class : Type;
  get_model : string → string → option model_class;
  template_variable : Type;
  new_variable : string → tresult template_variable;
  render_context : Type;
  resolve : template_variable → render_context → tresult Gencal.pyval;
  manager_filter :
    model_class → gmap string Gencal.pyval → tresult (list model_instance);
  render_template : string → Gencal.context → tresult string
}.

(** [self.date_obj]: the [Variable] built by the constructor, or a value
    once [render] has stored one. *)
Inductive date_slot `{Django} : Type :=
| Unresolved (var : template_variable)
| Resolved (value : Gencal.pyval).

(** The attributes of a [SimpleGencalNode]. *)
Record node `{Django} : Type := mk_node {
  node_field : string;
  node_date_obj : date_slot;
  node_template : string;
  node_model : model_class
}.
Arguments mk_node {_} _ _ _ _.

(** [SimpleGencalNode.__init__] *)
Definition SimpleGencalNode `{Django} (model field date_obj template : string)
  : tresult node :=
  var ← new_variable date_obj;
  let model_list := str_split_on dot model in
  _ ← lift (py_assert (length model_list =? 2)%nat);
  match model_list with
  | [app_label; model_name] =>
      match get_model app_label model_name with
      | Some m => TOk (mk_node field (Unresolved var) template m)
      | None => TErr (Python AssertionError)
      end
  | _ => TErr (Python ValueError)
  end.

(** The tag function [simple_gencal], from the words of the tag on: [bits]
    is [token.contents.split()]. *)
Definition simple_gencal `{Django} (bits : list string) : tresult node :=
  '(model, field, date_obj, template) ← simple_gencal_args bits;
  SimpleGencalNode model field date_obj template.

(** [getattr(event, field)] *)
Definition instance_getattr (event : model_instance) (field : string)
  : tresult Gencal.pyval :=
  match instance_attrs event !! field with
  | Some v => TOk v
  | None => TErr (Python AttributeError)
  end.

(** The dictionary built for one event in [render]. *)
Definition cal_item (field : string) (event : model_instance)
  : tresult (gmap string Gencal.pyval) :=
  day ← instance_getattr event field;
  title ← instance_unicode event;
  url ← instance_get_absolute_url event;
  TOk (<["class" := Gencal.PyStr ""]>
        (<["url" := url]> (<["title" := title]> (<["day" := day]> ∅)))).

(** [SimpleGencalNode.render]: the node after the call, and the result. *)
Definition render `{Django} (self : node) (context : render_context)
  : node * tresult string :=
  match node_date_obj self with
  | Resolved _ => (self, TErr (Python AttributeError))
  | Unresolved var =>
      match resolve var context with
      | TErr e => (self, TErr e)
      | TOk date_obj =>
          let self :=
            mk_node (node_field self) (Resolved date_obj)
                    (node_template self) (node_model self) in
          (self,
           year ← lift (Gencal.getattr Datetime.year date_obj);
           month ← lift (Gencal.getattr Datetime.month date_obj);
           let year_key := (node_field self ++ "__year")%string in
           let month_key := (node_field self ++ "__month")%string in
           let d :=
             <[month_key := Gencal.PyInt month]>
               (<[year_key := Gencal.PyInt year]> ∅) in
           event_set ← manager_filter (node_model self) d;
           cal_items ← tmapM (cal_item (node_field self)) event_set;
           d ← lift (Gencal.gencal date_obj cal_items);
           render_template (node_template self) d)
      end
  end.

End Tag.

Import Tag.

(** The tags the parser accepts: 5, 7 or 9 words, with the keywords, in any
    case, at the odd positions that exist. *)
Definition accepted (bits : list string) : Prop :=
  Z.of_nat (length bits) ∈ [5; 7; 9]
  ∧ ∀ (i : nat) k b,
      keywords !! i = Some k → bits !! (2 * i + 1)%nat = Some b →
      str_lower b = k.

(** The mismatch the parser tests at index [i]. *)
Definition mismatch_at (bits : list string) (i : nat) : bool :=
  negb (String.eqb (nth i keywords EmptyString)
          (str_lower (nth (2 * i + 1) bits EmptyString))).

(** The number of occurrences of a character in a string. *)
Fixpoint str_count (c : Ascii.ascii) (s : string) : nat :=
  match s with
  | EmptyString => 0
  | String c' s' => (if Ascii.eqb c' c then 1 else 0) + str_count c s'
  end.

(** [sep.join(l)] for a separator of one character. *)
Fixpoint str_join (sep : Ascii.ascii) (l : list string) : string :=
  match l with
  | [] => EmptyString
  | [w] => w
  | w :: ws => (w ++ String sep (str_join sep ws))%string
  end.

(** A toy framework: one model, [event.Event], with two rows; variables are
    looked up by name in the context; a template renders to its name
    followed by the headers of the grid it is given. *)
Definition sample_rows : list model_instance :=
  [mk_instance {[ "day" := PyDateTime (mkdate 2008 1 30) 14 0 0 0 ]}
     (TOk (PyStr "Concert")) (TOk (PyStr "/foo/2"));
   mk_instance {[ "day" := PyDate (mkdate 2008 1 5) ]}
     (TOk (PyStr "BBQ")) (TOk PyNone)].

#[global] Instance sample_django : Django := {|
  model_class := unit;
  get_model app_label model_name :=
    if decide (app_label = "event"%string ∧ model_name = "Event"%string)
    then Some tt else None;
  template_variable := string;
  new_variable var := TOk var;
  render_context := gmap string pyval;
  resolve var context :=
    match context !! var with
    | Some v => TOk v
    | None => TErr (Framework "VariableDoesNotExist")
    end;
  manager_filter _ _ := TOk sample_rows;
  render_template name d :=
    TOk (String.concat "," (name :: headers d))
|}.

(** A row [render] can show: the date field holds the attributes of a
    valid date, and the two methods of the row return. *)
Definition row_ok (field : string) (row : model_instance) : Prop :=
  ∃ v d title url,
    instance_attrs row !! field = Some v
    ∧ as_date v = Some d ∧ valid_date d
    ∧ instance_unicode row = TOk title
    ∧ instance_get_absolute_url row = TOk url.

(** The dictionary [render] builds for a row. *)
Definition item_of (day title url : pyval) : gmap string pyval :=
  <["class" := PyStr ""]>
    (<["url" := url]> (<["title" := title]> (<["day" := day]> ∅))).

(** ** The calendar: ordinals and dates *)

(** The model of [datetime.date] on the examples of the documentation of
    the module: [date.fromordinal(730920)] is 2002-03-11, 2002-12-04 is a
    Wednesday, and the ordinals run from 1 to [date.max.toordinal()]. *)
Example datetime_documented :
  fromordinal 730920 = mkdate 2002 3 11
  ∧ weekday (mkdate 2002 12 4) = 2
  ∧ toordinal (mkdate 1 1 1) = 1
  ∧ toordinal (mkdate 1970 1 1) = 719163
  ∧ toordinal (mkdate 9999 12 31) = _MAXORDINAL.
Proof. repeat split; reflexivity. Qed.

Lemma all_from_spec (f : Z → bool) (len : nat) :
  ∀ start, all_from f start len = true →
  ∀ z, start ≤ z < start + Z.of_nat len → f z = true.
Proof.
  induction len as [|k IH]; intros start H z Hz; [lia|].
  simpl in H. apply andb_true_iff in H as [H0 H1].
  destruct (decide (z = start)) as [->|Hne]; [done|].
  apply (IH (start + 1) H1). lia.
Qed.

Lemma months_checked leap : check_months leap = true.
Proof. destruct leap; vm_compute; reflexivity. Qed.

Lemma dim_leap_bounds leap m : 1 ≤ m ≤ 12 → 28 ≤ dim_leap leap m ≤ 31.
Proof.
  intros Hm.
  assert (m = 1 ∨ m = 2 ∨ m = 3 ∨ m = 4 ∨ m = 5 ∨ m = 6 ∨ m = 7 ∨ m = 8
          ∨ m = 9 ∨ m = 10 ∨ m = 11 ∨ m = 12) as Hc by lia.
  destruct leap;
    repeat (destruct Hc as [->|Hc]; [vm_compute; split; discriminate|]);
    subst; vm_compute; split; discriminate.
Qed.

Lemma ord2md_correct leap m d :
  1 ≤ m ≤ 12 → 1 ≤ d ≤ dim_leap leap m →
  ord2md leap (dbm_leap leap m + d - 1) = (m, d).
Proof.
  intros Hm Hd.
  pose proof (dim_leap_bounds leap m Hm) as Hb.
  pose proof (months_checked leap) as Hall. unfold check_months in Hall.
  pose proof (all_from_spec _ _ _ Hall m ltac:(lia)) as Hmth. cbv beta in Hmth.
  pose proof (all_from_spec _ _ _ Hmth d ltac:(lia)) as Hchk.
  unfold check_md in Hchk.
  destruct (Z.leb_spec d (dim_leap leap m)); [|lia].
  destruct (ord2md leap (dbm_leap leap m + d - 1)) as [m' d'].
  apply andb_true_iff in Hchk as [H1 H2].
  apply Z.eqb_eq in H1, H2. congruence.
Qed.

(** Digits of a year number minus one in the mixed radix 400/100/4/1. *)
Lemma year_digits (Y : Z) :
  ∃ a b c e, Y = 400 * a + 100 * b + 4 * c + e
    ∧ 0 ≤ b ≤ 3 ∧ 0 ≤ c ≤ 24 ∧ 0 ≤ e ≤ 3.
Proof.
  exists (Y / 400), (Y mod 400 / 100), (Y mod 100 / 4), (Y mod 4).
  Z.div_mod_to_equations; lia.
Qed.

Lemma is_leap_digits a b c e :
  0 ≤ b ≤ 3 → 0 ≤ c ≤ 24 → 0 ≤ e ≤ 3 →
  _is_leap (year_of_digits a b c e) = leap_of_digits b c e.
Proof.
  intros Hb Hc He. unfold _is_leap, leap_of_digits, year_of_digits.
  replace ((400 * a + 100 * b + 4 * c + e + 1) mod 4) with ((e + 1) mod 4)
    by (Z.div_mod_to_equations; lia).
  replace ((400 * a + 100 * b + 4 * c + e + 1) mod 100)
    with ((4 * c + e + 1) mod 100) by (Z.div_mod_to_equations; lia).
  replace ((400 * a + 100 * b + 4 * c + e + 1) mod 400)
    with ((100 * b + 4 * c + e + 1) mod 400) by (Z.div_mod_to_equations; lia).
  repeat case Z.eqb_spec; simpl; intros; try reflexivity;
    exfalso; Z.div_mod_to_equations; lia.
Qed.

Lemma days_before_year_digits a b c e :
  0 ≤ b ≤ 3 → 0 ≤ c ≤ 24 → 0 ≤ e ≤ 3 →
  _days_before_year (year_of_digits a b c e)
  = 146097 * a + 36524 * b + 1461 * c + 365 * e.
Proof.
  intros Hb Hc He. unfold _days_before_year, year_of_digits. cbv zeta.
  replace (400 * a + 100 * b + 4 * c + e + 1 - 1)
    with (400 * a + 100 * b + 4 * c + e) by lia.
  Z.div_mod_to_equations; lia.
Qed.

Lemma ord2ymd_digits a b c e r :
  0 ≤ b ≤ 3 → 0 ≤ c ≤ 24 → 0 ≤ e ≤ 3 →
  0 ≤ r < 365 + (if leap_of_digits b c e then 1 else 0) →
  _ord2ymd (146097 * a + 36524 * b + 1461 * c + 365 * e + r + 1)
  = let '(m, d) := ord2md (leap_of_digits b c e) r in
    (year_of_digits a b c e, m, d).
Proof.
  intros Hb Hc He Hr.
  assert (r ≤ 364 ∨ r = 365 ∧ e = 3 ∧ (c ≠ 24 ∨ b = 3)) as Hcases.
  { revert Hr. unfold leap_of_digits.
    repeat case Z.eqb_spec; simpl; intros; lia. }
  unfold _ord2ymd, _DI400Y, _DI100Y, _DI4Y.
  replace (146097 * a + 36524 * b + 1461 * c + 365 * e + r + 1 - 1)
    with ((36524 * b + 1461 * c + 365 * e + r) + a * 146097) by lia.
  rewrite Z.div_add, Z.mod_add by lia.
  assert (0 ≤ 36524 * b + 1461 * c + 365 * e + r < 146097) by lia.
  rewrite (Z.div_small _ 146097), (Z.mod_small _ 146097) by lia.
  destruct (decide (c = 24 ∧ e = 3 ∧ r = 365)) as [(-> & -> & ->)|Hn].
  - assert (b = 3) as -> by lia.
    set (X := 36524 * 3 + 1461 * 24 + 365 * 3 + 365).
    replace (X / 36524) with 4 by reflexivity.
    replace (X mod 36524) with 0 by reflexivity.
    replace (0 mod 1461) with 0 by reflexivity.
    replace (0 / 1461) with 0 by reflexivity.
    replace (0 / 365) with 0 by reflexivity.
    change ((0 =? 4) || (4 =? 4)) with true. cbv iota.
    change (ord2md (leap_of_digits 3 24 3) 365) with (12, 31). cbv iota beta.
    unfold year_of_digits. f_equal. f_equal. lia.
  - replace (36524 * b + 1461 * c + 365 * e + r)
      with ((1461 * c + 365 * e + r) + b * 36524) by lia.
    rewrite Z.div_add, Z.mod_add by lia.
    rewrite (Z.div_small _ 36524), (Z.mod_small _ 36524) by lia.
    replace (1461 * c + 365 * e + r) with ((365 * e + r) + c * 1461) by lia.
    rewrite Z.div_add, Z.mod_add by lia.
    rewrite (Z.div_small _ 1461), (Z.mod_small _ 1461) by lia.
    destruct (decide (r = 365)) as [->|Hr365].
    + assert (e = 3) as -> by lia.
      assert (leap_of_digits b c 3 = true) as Hl.
      { revert Hr. unfold leap_of_digits.
        repeat case Z.eqb_spec; simpl; intros; lia. }
      rewrite Hl. change ((365 * 3 + 365) / 365) with 4.
      change ((4 =? 4) || (0 + b =? 4)) with true. cbv iota.
      change (ord2md true 365) with (12, 31). cbv iota beta.
      unfold year_of_digits. f_equal. f_equal. lia.
    + replace (365 * e + r) with (r + e * 365) by lia.
      rewrite Z.div_add, Z.mod_add by lia.
      rewrite (Z.div_small _ 365), (Z.mod_small _ 365) by lia.
      rewrite !Z.add_0_l.
      assert ((e =? 4) = false) as -> by (apply Z.eqb_neq; lia).
      assert ((b =? 4) = false) as -> by (apply Z.eqb_neq; lia).
      cbn [orb]. fold (leap_of_digits b c e). unfold ord2md. cbv zeta.
      replace (a * 400 + 1 + (b * 100 + c * 4 + e))
        with (year_of_digits a b c e) by (unfold year_of_digits; lia).
      destruct (_ <? _); reflexivity.
Qed.


(** Case analysis on a month number between 1 and 12. *)
Ltac month_cases m H :=
  let Hc := fresh "Hc" in
  assert (m = 1 ∨ m = 2 ∨ m = 3 ∨ m = 4 ∨ m = 5 ∨ m = 6 ∨ m = 7 ∨ m = 8
          ∨ m = 9 ∨ m = 10 ∨ m = 11 ∨ m = 12) as Hc by lia;
  clear H;
  repeat (destruct Hc as [->|Hc]); [..|subst m].

Lemma days_in_month_leap y m : _days_in_month y m = dim_leap (_is_leap y) m.
Proof. reflexivity. Qed.

Lemma days_before_month_leap y m :
  _days_before_month y m = dbm_leap (_is_leap y) m.
Proof. reflexivity. Qed.

Lemma days_in_month_bounds y m : 1 ≤ m ≤ 12 → 28 ≤ _days_in_month y m ≤ 31.
Proof. apply dim_leap_bounds. Qed.

Lemma dbm_leap_range leap m :
  1 ≤ m ≤ 12 →
  0 ≤ dbm_leap leap m
  ∧ dbm_leap leap m + dim_leap leap m ≤ 365 + (if leap then 1 else 0).
Proof.
  intros Hm. month_cases m Hm; destruct leap; vm_compute; split; discriminate.
Qed.

Lemma dbm_leap_next leap m :
  1 ≤ m ≤ 11 → dbm_leap leap (m + 1) = dbm_leap leap m + dim_leap leap m.
Proof.
  intros Hm.
  assert (1 ≤ m ≤ 12) as Hm' by lia.
  month_cases m Hm'; try lia; destruct leap; reflexivity.
Qed.

Lemma days_before_year_next y :
  _days_before_year (y + 1)
  = _days_before_year y + 365 + (if _is_leap y then 1 else 0).
Proof.
  unfold _days_before_year, _is_leap. cbv zeta.
  replace (y + 1 - 1) with y by lia.
  repeat case Z.eqb_spec; simpl; intros; Z.div_mod_to_equations; lia.
Qed.

Lemma ord2ymd_ymd2ord y m d :
  1 ≤ m ≤ 12 → 1 ≤ d ≤ _days_in_month y m →
  _ord2ymd (_ymd2ord y m d) = (y, m, d).
Proof.
  intros Hm Hd.
  destruct (year_digits (y - 1)) as (a & b & c & e & Hy & Hb & Hc & He).
  assert (y = year_of_digits a b c e) as -> by (unfold year_of_digits; lia).
  unfold _ymd2ord.
  rewrite days_in_month_leap in Hd.
  rewrite days_before_month_leap, days_before_year_digits by done.
  rewrite is_leap_digits in * by done.
  pose proof (dbm_leap_range (leap_of_digits b c e) m Hm) as [Hr0 Hr1].
  replace (146097 * a + 36524 * b + 1461 * c + 365 * e
           + dbm_leap (leap_of_digits b c e) m + d)
    with (146097 * a + 36524 * b + 1461 * c + 365 * e
          + (dbm_leap (leap_of_digits b c e) m + d - 1) + 1) by lia.
  rewrite ord2ymd_digits by (done || lia).
  by rewrite ord2md_correct.
Qed.

(** Ordinal of the first day of the month after [month]. *)
Lemma ymd2ord_next_month y m :
  1 ≤ m ≤ 12 →
  let '(ny, nm) := next_month_of y m in
  _ymd2ord ny nm 1 = _ymd2ord y m 1 + _days_in_month y m.
Proof.
  intros Hm. unfold next_month_of, _ymd2ord.
  case Z.eqb_spec; intros Hm12.
  - subst m. rewrite days_before_year_next.
    unfold _days_before_month, _days_in_month.
    change (index _DAYS_BEFORE_MONTH 1) with 0.
    change (index _DAYS_BEFORE_MONTH 12) with 334.
    change (index _DAYS_IN_MONTH 12) with 31.
    change (2 <? 1) with false. change (12 =? 2) with false.
    change (2 <? 12) with true. cbn [andb].
    destruct (_is_leap (y + 1)), (_is_leap y); lia.
  - rewrite !days_before_month_leap, days_in_month_leap.
    rewrite dbm_leap_next by lia. lia.
Qed.

Lemma prev_next_month y m :
  1 ≤ m ≤ 12 →
  let '(py, pm) := prev_month_of y m in
  1 ≤ pm ≤ 12 ∧ next_month_of py pm = (y, m).
Proof.
  intros Hm. unfold prev_month_of, next_month_of.
  case Z.eqb_spec; intros; repeat case Z.eqb_spec; intros;
    try lia; (split; [lia|f_equal; lia]).
Qed.

Lemma next_month_range y m :
  1 ≤ m ≤ 12 → 1 ≤ (next_month_of y m).2 ≤ 12.
Proof. intros Hm. unfold next_month_of. case Z.eqb_spec; simpl; lia. Qed.

Lemma toordinal_day_at y m k :
  1 ≤ m ≤ 12 → toordinal (day_at y m k) = _ymd2ord y m 1 + k.
Proof.
  intros Hm. unfold day_at, toordinal.
  case Z.ltb_spec; intros Hk0.
  - pose proof (prev_next_month y m Hm) as Hp.
    destruct (prev_month_of y m) as [py pm]. destruct Hp as [Hpm Hn].
    pose proof (ymd2ord_next_month py pm Hpm) as Ho. rewrite Hn in Ho.
    simpl. unfold _ymd2ord in *. lia.
  - case Z.ltb_spec; intros Hk1.
    + simpl. unfold _ymd2ord. lia.
    + pose proof (ymd2ord_next_month y m Hm) as Ho.
      destruct (next_month_of y m) as [ny nm].
      simpl. unfold _ymd2ord in *. lia.
Qed.

Lemma day_at_wf y m k :
  1 ≤ m ≤ 12 → -28 ≤ k < _days_in_month y m + 28 → wf_date (day_at y m k).
Proof.
  intros Hm Hk. unfold day_at, wf_date.
  pose proof (days_in_month_bounds y m Hm).
  case Z.ltb_spec; intros Hk0.
  - pose proof (prev_next_month y m Hm) as Hp.
    destruct (prev_month_of y m) as [py pm]. destruct Hp as [Hpm _].
    pose proof (days_in_month_bounds py pm Hpm). simpl. lia.
  - case Z.ltb_spec; intros Hk1; [simpl; lia|].
    pose proof (next_month_range y m Hm) as Hn.
    destruct (next_month_of y m) as [ny nm]. simpl in *.
    pose proof (days_in_month_bounds ny nm Hn). lia.
Qed.

Lemma fromordinal_toordinal d : wf_date d → fromordinal (toordinal d) = d.
Proof.
  intros [Hm Hd]. unfold fromordinal, toordinal.
  rewrite ord2ymd_ymd2ord by done. by destruct d.
Qed.

Lemma fromordinal_day_at y m k :
  1 ≤ m ≤ 12 → -28 ≤ k < _days_in_month y m + 28 →
  fromordinal (_ymd2ord y m 1 + k) = day_at y m k.
Proof.
  intros Hm Hk. rewrite <- toordinal_day_at by done.
  apply fromordinal_toordinal, day_at_wf; done.
Qed.

Lemma wf_date_eq d1 d2 :
  wf_date d1 → wf_date d2 → toordinal d1 = toordinal d2 → d1 = d2.
Proof.
  intros H1 H2 Ho.
  rewrite <- (fromordinal_toordinal d1 H1), <- (fromordinal_toordinal d2 H2).
  by rewrite Ho.
Qed.

Lemma weekday_day_at y m k :
  1 ≤ m ≤ 12 →
  weekday (day_at y m k) = (weekday (mkdate y m 1) + k) mod 7.
Proof.
  intros Hm. unfold weekday. rewrite toordinal_day_at by done.
  unfold toordinal. simpl. Z.div_mod_to_equations; lia.
Qed.


(** ** The days [get_iterable_days] enumerates *)

Lemma mapM_ok {A B} (f : A → result B) (g : A → B) (l : list A) :
  (∀ x, x ∈ l → f x = Ok (g x)) → mapM f l = Ok (map g l).
Proof.
  induction l as [|x l IH]; intros H; [done|].
  simpl. rewrite H by left. simpl.
  rewrite IH; [done|]. intros z Hz. apply H. by right.
Qed.

Lemma elem_of_range_from len : ∀ start z,
  z ∈ range_from start len ↔ start ≤ z < start + Z.of_nat len.
Proof.
  induction len as [|k IH]; intros start z; simpl.
  - rewrite elem_of_nil. lia.
  - rewrite elem_of_cons, IH. lia.
Qed.

Lemma elem_of_py_range n z : z ∈ py_range n ↔ 0 ≤ z < n.
Proof. unfold py_range. rewrite elem_of_range_from. lia. Qed.

Lemma length_range_from len : ∀ start, length (range_from start len) = len.
Proof. induction len; intros; simpl; auto. Qed.

Lemma lookup_range_from len : ∀ start (i : nat),
  (i < len)%nat → range_from start len !! i = Some (start + Z.of_nat i).
Proof.
  induction len as [|k IH]; intros start i Hi; [lia|].
  destruct i as [|i]; simpl.
  - f_equal. lia.
  - rewrite IH by lia. f_equal. lia.
Qed.

Lemma c_int_spec n : c_int n = true ↔ INT_MIN ≤ n ≤ INT_MAX.
Proof. unfold c_int. rewrite andb_true_iff, !Z.leb_le. done. Qed.

Lemma new_ok y m d :
  valid_year_month y m → 1 ≤ d ≤ _days_in_month y m →
  new y m d = Ok (mkdate y m d).
Proof.
  intros [Hy Hm] Hd. pose proof (days_in_month_bounds y m Hm).
  unfold new.
  rewrite !(proj2 (c_int_spec _))
    by (unfold INT_MIN, INT_MAX, MINYEAR, MAXYEAR in *; lia).
  cbn [andb negb]. unfold MINYEAR, MAXYEAR in *.
  repeat (case Z.leb_spec; intros; try lia). reflexivity.
Qed.

Lemma mdays_days_in_month y m :
  1 ≤ m ≤ 12 →
  index Calendar.mdays m
  + (if (m =? Calendar.February) && Calendar.isleap y then 1 else 0)
  = _days_in_month y m.
Proof.
  intros Hm. unfold _days_in_month.
  change (Calendar.isleap y) with (_is_leap y).
  month_cases m Hm; destruct (_is_leap y); reflexivity.
Qed.

Lemma monthrange_ok y m :
  valid_year_month y m →
  Calendar.monthrange y m = Ok (head_days y m, _days_in_month y m).
Proof.
  intros Hv. pose proof Hv as [Hy Hm].
  pose proof (days_in_month_bounds y m Hm).
  unfold Calendar.monthrange, Calendar.weekday.
  repeat (case Z.leb_spec; intros; try lia). cbn [andb negb].
  rewrite new_ok by (done || lia). simpl.
  by rewrite mdays_days_in_month.
Qed.

Lemma weekday_range d : 0 ≤ weekday d ≤ 6.
Proof. unfold weekday. Z.div_mod_to_equations; lia. Qed.

Lemma head_days_range y m : 0 ≤ head_days y m ≤ 6.
Proof. apply weekday_range. Qed.

Lemma tail_days_range y m : 0 ≤ tail_days y m ≤ 6.
Proof.
  unfold tail_days.
  pose proof (weekday_range (mkdate y m (_days_in_month y m))). lia.
Qed.

(** [total_days_in_calendar] is a number of whole weeks. *)
Lemma total_days_mod_7 y m : total_days_in_calendar y m mod 7 = 0.
Proof.
  unfold total_days_in_calendar, head_days, tail_days, weekday, toordinal,
    _ymd2ord. simpl.
  Z.div_mod_to_equations; lia.
Qed.

Lemma total_days_range y m :
  1 ≤ m ≤ 12 → 28 ≤ total_days_in_calendar y m ≤ 42.
Proof.
  intros Hm. pose proof (total_days_mod_7 y m) as H7.
  pose proof (head_days_range y m). pose proof (tail_days_range y m).
  pose proof (days_in_month_bounds y m Hm).
  unfold total_days_in_calendar in *. Z.div_mod_to_equations; lia.
Qed.

Lemma days_before_year_bounds y :
  1 ≤ y ≤ 9999 →
  0 ≤ _days_before_year y ≤ 3651694
  ∧ (2 ≤ y → 365 ≤ _days_before_year y)
  ∧ (y ≤ 9998 → _days_before_year y ≤ 3651329).
Proof.
  intros Hy. unfold _days_before_year. cbv zeta.
  Z.div_mod_to_equations; lia.
Qed.

Lemma is_leap_9999 : _is_leap 9999 = false.
Proof. reflexivity. Qed.

(** Ordinals of the first day of a month and of the first day of the
    following month, within the range of [datetime.date]. *)
Lemma first_ordinal_bounds y m :
  valid_year_month y m →
  1 ≤ _ymd2ord y m 1
  ∧ ((y, m) ≠ (1, 1) → 32 ≤ _ymd2ord y m 1)
  ∧ _ymd2ord y m 1 + _days_in_month y m ≤ _MAXORDINAL + 1
  ∧ ((y, m) ≠ (9999, 12) →
     _ymd2ord y m 1 + _days_in_month y m + 6 ≤ _MAXORDINAL).
Proof.
  intros [Hy Hm]. unfold MINYEAR, MAXYEAR, _MAXORDINAL in *.
  pose proof (days_before_year_bounds y Hy) as (Hb0 & Hb1 & Hb2).
  unfold _ymd2ord. rewrite days_before_month_leap, days_in_month_leap.
  destruct (decide (y = 9999)) as [->|Hy9].
  - rewrite is_leap_9999.
    month_cases m Hm; vm_compute; repeat split; try discriminate;
      intros; try discriminate; congruence.
  - specialize (Hb2 ltac:(lia)).
    assert (0 ≤ dbm_leap (_is_leap y) m
            ∧ dbm_leap (_is_leap y) m + dim_leap (_is_leap y) m ≤ 366
            ∧ (m ≠ 1 → 31 ≤ dbm_leap (_is_leap y) m)) as (Hd0 & Hd1 & Hd2).
    { month_cases m Hm; destruct (_is_leap y); vm_compute;
        repeat split; try discriminate; intros; congruence. }
    repeat split; try lia.
    intros Hne. destruct (decide (m = 1)) as [->|Hm1]; [|lia].
    assert (y ≠ 1) by congruence. lia.
Qed.

Lemma head_days_1_1 : head_days 1 1 = 0.
Proof. reflexivity. Qed.

Lemma add_day_at y m k i :
  1 ≤ m ≤ 12 →
  -28 ≤ k + i < _days_in_month y m + 28 →
  0 < _ymd2ord y m 1 + k + i ≤ _MAXORDINAL →
  add (day_at y m k) i = Ok (day_at y m (k + i)).
Proof.
  intros Hm Hi Ho. unfold add.
  rewrite toordinal_day_at by done.
  case Z.ltb_spec; intros; [|lia]. case Z.leb_spec; intros; [|lia].
  simpl. f_equal. rewrite <- Z.add_assoc.
  apply fromordinal_day_at; [done|lia].
Qed.

Lemma get_iterable_days_extent_ok y m :
  valid_year_month y m →
  Gencal.get_iterable_days_extent y m
  = Ok (day_at y m (- head_days y m), head_days y m, _days_in_month y m,
        tail_days y m, total_days_in_calendar y m).
Proof.
  intros Hv. pose proof Hv as [Hy Hm].
  pose proof (days_in_month_bounds y m Hm) as Hdim.
  pose proof (head_days_range y m) as Hhd.
  pose proof (first_ordinal_bounds y m Hv) as (Ho1 & Ho2 & Ho3 & _).
  unfold Gencal.get_iterable_days_extent.
  rewrite monthrange_ok by done. simpl.
  rewrite !new_ok by (done || lia). simpl.
  fold (head_days y m).
  assert (sub (mkdate y m 1) (head_days y m)
          = Ok (day_at y m (- head_days y m))) as ->.
  { unfold sub, add. change (toordinal (mkdate y m 1)) with (_ymd2ord y m 1).
    assert (0 < _ymd2ord y m 1 + - head_days y m ≤ _MAXORDINAL).
    { unfold _MAXORDINAL in *.
      destruct (decide ((y, m) = (1, 1))) as [[= -> ->]|Hne].
      - rewrite head_days_1_1. vm_compute. split; [done|discriminate].
      - specialize (Ho2 Hne). lia. }
    case Z.ltb_spec; intros; [|lia]. case Z.leb_spec; intros; [|lia].
    simpl. f_equal. apply fromordinal_day_at; [done|lia]. }
  reflexivity.
Qed.

Lemma get_iterable_days_ok y m :
  valid_year_month y m → (y, m) ≠ (9999, 12) →
  Gencal.get_iterable_days y m = Ok (grid_days y m).
Proof.
  intros Hv Hne. pose proof Hv as [Hy Hm].
  pose proof (days_in_month_bounds y m Hm) as Hdim.
  pose proof (head_days_range y m) as Hhd.
  pose proof (tail_days_range y m) as Htd.
  pose proof (first_ordinal_bounds y m Hv) as (Ho1 & Ho2 & Ho3 & Ho4).
  specialize (Ho4 Hne).
  unfold Gencal.get_iterable_days.
  rewrite get_iterable_days_extent_ok by done. simpl.
  rewrite total_days_mod_7. simpl.
  apply mapM_ok. intros i Hi. apply elem_of_py_range in Hi.
  unfold total_days_in_calendar in Hi.
  replace (i - head_days y m) with (- head_days y m + i) by lia.
  assert (0 < _ymd2ord y m 1 + - head_days y m + i ≤ _MAXORDINAL).
  { unfold _MAXORDINAL in *.
    destruct (decide ((y, m) = (1, 1))) as [[= -> ->]|Hne1].
    - rewrite head_days_1_1 in *. lia.
    - specialize (Ho2 Hne1). lia. }
  apply add_day_at; (done || lia).
Qed.

Lemma get_iterable_days_9999_12 :
  Gencal.get_iterable_days 9999 12 = Err OverflowError.
Proof. vm_compute. reflexivity. Qed.


(** ** The events [get_events_by_day] groups *)

Lemma new_valid d :
  valid_date d → new (year d) (month d) (Datetime.day d) = Ok d.
Proof.
  intros [Hy [Hm Hd]]. destruct d as [y m dd]. simpl in *.
  by apply new_ok.
Qed.

Lemma new_inv y m d r : new y m d = Ok r → r = mkdate y m d ∧ valid_date r.
Proof.
  unfold new, valid_date, wf_date, MINYEAR, MAXYEAR.
  case (negb (c_int y && c_int m && c_int d)); [discriminate|].
  repeat (case Z.leb_spec; intros ?; cbn [andb negb]; try discriminate).
  intros [= <-]. cbn [year month Datetime.day]. split; [done|lia].
Qed.

(** The constructor raises [ValueError] or [OverflowError], and the latter
    exactly when an argument is not a C [int]. *)
Lemma new_error y m d x :
  new y m d = Err x → x = ValueError ∨ x = OverflowError.
Proof.
  unfold new. repeat (case (negb _)); intros [= <-]; auto.
Qed.



Lemma group_event_ok e :
  well_formed_event e →
  ∃ d ce, event_key e = Some d ∧ grouped e = Some ce
          ∧ group_event e = Ok (d, ce).
Proof.
  intros [(d & Hk & Hv) [ce Hg]]. exists d, ce. repeat split; try done.
  unfold event_key, grouped, group_event, getitem, getattr in *.
  destruct (e !! "day") as [v|]; simpl in *; [|done].
  rewrite Hk. simpl. rewrite new_valid by done. simpl.
  destruct (e !! "title"), (e !! "url"), (e !! "class"); simpl in *;
    try done. by simplify_eq.
Qed.

Lemma group_event_inv e d ce :
  group_event e = Ok (d, ce) →
  event_key e = Some d ∧ grouped e = Some ce ∧ valid_date d.
Proof.
  unfold event_key, grouped, group_event, getitem, getattr.
  destruct (e !! "day") as [v|]; simpl; [|done].
  destruct (as_date v) as [d0|]; simpl; [|done].
  destruct (new _ _ _) as [d1|] eqn:Hnew; simpl; [|done].
  apply new_inv in Hnew as [-> Hv].
  destruct (e !! "title"), (e !! "url"), (e !! "class"); simpl; try done.
  intros [= <- <-]. by destruct d0.
Qed.

Lemma group_event_wf e r : group_event e = Ok r → well_formed_event e.
Proof.
  destruct r as [d ce]. intros (Hk & Hg & Hv)%group_event_inv.
  split; [by exists d | by exists ce].
Qed.

Lemma group_event_error e x : group_event e = Err x → event_error x.
Proof.
  unfold group_event, getitem, getattr, event_error.
  destruct (e !! "day") as [v|]; simpl; [|naive_solver].
  destruct (as_date v) as [d0|]; simpl; [|naive_solver].
  destruct (new _ _ _) as [d1|] eqn:Hnew; simpl.
  - destruct (e !! "title"), (e !! "url"), (e !! "class"); simpl;
      naive_solver.
  - apply new_error in Hnew. naive_solver.
Qed.

Lemma events_on_insert ebd k l d :
  events_on (<[k := l]> ebd) d = if decide (k = d) then l else events_on ebd d.
Proof.
  unfold events_on. rewrite lookup_insert. by case_decide.
Qed.

Lemma events_for_cons d e items :
  events_for d (e :: items)
  = match (if decide (event_key e = Some d) then grouped e else None) with
    | Some ce => ce :: events_for d items
    | None => events_for d items
    end.
Proof. reflexivity. Qed.

Lemma get_events_by_day_loop_cons acc e items :
  get_events_by_day_loop acc (e :: items)
  = match group_event e with
    | Ok (d, ce) =>
        get_events_by_day_loop (<[d := events_on acc d ++ [ce]]> acc) items
    | Err x => Err x
    end.
Proof. simpl. by destruct (group_event e) as [[d ce]|x]. Qed.

(** What [get_events_by_day] computes: every event is accepted, and each
    date maps to its events in input order; or the exception of the first
    event that is not accepted. *)
Lemma get_events_by_day_loop_spec items : ∀ acc,
  match get_events_by_day_loop acc items with
  | Ok ebd =>
      Forall well_formed_event items
      ∧ ∀ d, events_on ebd d = events_on acc d ++ events_for d items
  | Err x => event_error x ∧ ¬ Forall well_formed_event items
  end.
Proof.
  induction items as [|e items IH]; intros acc.
  - simpl. split; [constructor|]. intros d. by rewrite app_nil_r.
  - rewrite get_events_by_day_loop_cons.
    destruct (group_event e) as [[k ce]|x] eqn:Hg.
    + pose proof (group_event_wf _ _ Hg) as Hwf.
      apply group_event_inv in Hg as (Hk & Hgr & _).
      specialize (IH (<[k:=events_on acc k ++ [ce]]> acc)).
      destruct (get_events_by_day_loop _ items) as [ebd|x].
      * destruct IH as [Hall Hev]. split; [by constructor|].
        intros d. rewrite Hev, events_on_insert, events_for_cons.
        case_decide as Hkd.
        -- subst k. rewrite decide_True by done. rewrite Hgr.
           by rewrite <- app_assoc.
        -- rewrite decide_False by congruence. done.
      * destruct IH as [Hx Hn]. split; [done|].
        intros Hall. apply Hn. by inversion Hall.
    + split; [by eapply group_event_error|].
      intros Hall. inversion Hall as [|?? Hwf _]; subst.
      apply group_event_ok in Hwf as (? & ? & _ & _ & Heq). congruence.
Qed.

Lemma events_on_empty d : events_on ∅ d = [].
Proof. unfold events_on. by rewrite lookup_empty. Qed.

Lemma get_events_by_day_ok items :
  Forall well_formed_event items →
  ∃ ebd, get_events_by_day items = Ok ebd
         ∧ ∀ d, events_on ebd d = events_for d items.
Proof.
  intros Hall. unfold get_events_by_day.
  pose proof (get_events_by_day_loop_spec items ∅) as H.
  destruct (get_events_by_day_loop ∅ items) as [ebd|x].
  - exists ebd. split; [done|]. intros d.
    destruct H as [_ H]. by rewrite H, events_on_empty.
  - by destruct H.
Qed.

Lemma get_events_by_day_inv items ebd :
  get_events_by_day items = Ok ebd →
  Forall well_formed_event items ∧ ∀ d, events_on ebd d = events_for d items.
Proof.
  unfold get_events_by_day. intros Heq.
  pose proof (get_events_by_day_loop_spec items ∅) as H. rewrite Heq in H.
  destruct H as [Hall H]. split; [done|].
  intros d. by rewrite H, events_on_empty.
Qed.

Lemma get_events_by_day_error items :
  ¬ Forall well_formed_event items →
  ∃ x, get_events_by_day items = Err x ∧ event_error x.
Proof.
  intros Hn. unfold get_events_by_day.
  pose proof (get_events_by_day_loop_spec items ∅) as H.
  destruct (get_events_by_day_loop ∅ items) as [ebd|x].
  - by destruct H.
  - exists x. by destruct H.
Qed.

(** ** The loop over the days *)

Lemma range_from_snoc len : ∀ start,
  range_from start (S len) = range_from start len ++ [start + Z.of_nat len].
Proof.
  induction len as [|k IH]; intros start.
  - simpl. f_equal. lia.
  - change (range_from start (S (S k)))
      with (start :: range_from (start + 1) (S k)).
    rewrite IH. simpl. do 3 f_equal. lia.
Qed.

Lemma gencal_loop_invariant ebd month days :
  (∀ (i : nat) d, days !! i = Some d →
                  Datetime.weekday d = Z.of_nat i mod 7) →
  ∃ week mc,
    fold_left (gencal_step ebd month) days ([], []) = (week, mc)
    ∧ concat mc ++ week = map (mk_cell ebd month) days
    ∧ Forall week_row mc
    ∧ Z.of_nat (length week) = Z.of_nat (length days) mod 7
    ∧ map (λ c, Datetime.weekday (Gencal.day c)) week
      = range_from 0 (length week).
Proof.
  induction days as [|d days IH] using rev_ind; intros Hwd.
  - exists [], []. simpl. repeat split; done.
  - destruct IH as (week & mc & Hfold & Hcat & Hrows & Hlen & Hwk).
    { intros i d' Hi. apply Hwd. by apply lookup_app_l_Some. }
    assert (Datetime.weekday d = Z.of_nat (length days) mod 7) as Hd.
    { apply Hwd. by rewrite lookup_app_r, Nat.sub_diag. }
    rewrite fold_left_app, Hfold. simpl.
    rewrite length_app, map_app. simpl.
    fold (mk_cell ebd month d).
    assert (map (λ c, Datetime.weekday (Gencal.day c))
                (week ++ [mk_cell ebd month d])
            = range_from 0 (S (length week))) as Hwk'.
    { rewrite map_app, range_from_snoc, Hwk. simpl. do 2 f_equal. lia. }
    case Z.eqb_spec; intros H6.
    + exists [], (mc ++ [week ++ [mk_cell ebd month d]]).
      split; [done|]. rewrite concat_app. simpl.
      rewrite !app_nil_r, app_assoc, Hcat.
      repeat split; try done.
      * apply Forall_app. split; [done|]. constructor; [|constructor].
        unfold week_row. rewrite Hwk'.
        assert (length week = 6%nat) as -> by lia. reflexivity.
      * simpl. Z.div_mod_to_equations; lia.
    + exists (week ++ [mk_cell ebd month d]), mc.
      split; [done|]. rewrite app_assoc, Hcat.
      repeat split; try done.
      * rewrite length_app. simpl. Z.div_mod_to_equations; lia.
      * rewrite length_app. simpl. rewrite Hwk'. f_equal. lia.
Qed.

Lemma gencal_step_ext ebd1 ebd2 month days :
  (∀ d, d ∈ days → events_on ebd1 d = events_on ebd2 d) →
  ∀ st, fold_left (gencal_step ebd1 month) days st
        = fold_left (gencal_step ebd2 month) days st.
Proof.
  induction days as [|d days IH]; intros Hev st; [done|].
  simpl. rewrite IH by (intros; apply Hev; by right).
  f_equal. unfold gencal_step. destruct st. rewrite Hev by left. done.
Qed.

Lemma week_row_length w : week_row w → length w = 7%nat.
Proof.
  unfold week_row. intros H.
  apply (f_equal length) in H. by rewrite length_map in H.
Qed.

Lemma length_concat_rows (mc : list (list cal_day)) :
  Forall week_row mc → length (concat mc) = (7 * length mc)%nat.
Proof.
  induction 1 as [|w mc Hw _ IH]; [done|].
  simpl. rewrite length_app, IH, (week_row_length w Hw). lia.
Qed.


(** ** The dictionary [gencal] returns *)

Lemma length_grid_days y m :
  length (grid_days y m) = Z.to_nat (total_days_in_calendar y m).
Proof. unfold grid_days, py_range. by rewrite length_map, length_range_from. Qed.

Lemma lookup_grid_days y m (i : nat) :
  Z.of_nat i < total_days_in_calendar y m →
  grid_days y m !! i = Some (day_at y m (Z.of_nat i - head_days y m)).
Proof.
  intros Hi. unfold grid_days, py_range.
  rewrite list_lookup_fmap, lookup_range_from by lia. done.
Qed.

Lemma lookup_grid_days_inv y m (i : nat) d :
  grid_days y m !! i = Some d →
  Z.of_nat i < total_days_in_calendar y m
  ∧ d = day_at y m (Z.of_nat i - head_days y m).
Proof.
  intros Hi. pose proof (lookup_lt_Some _ _ _ Hi) as Hlt.
  rewrite length_grid_days in Hlt.
  assert (Z.of_nat i < total_days_in_calendar y m) as Hlt' by lia.
  rewrite lookup_grid_days in Hi by done. split; congruence.
Qed.

Lemma weekday_grid_days y m (i : nat) d :
  1 ≤ m ≤ 12 → grid_days y m !! i = Some d →
  Datetime.weekday d = Z.of_nat i mod 7.
Proof.
  intros Hm [_ ->]%lookup_grid_days_inv.
  rewrite weekday_day_at by done. fold (head_days y m). f_equal. lia.
Qed.

(** The rows of the grid: whole weeks, whose cells are those of the days of
    the grid in order. *)
Lemma month_cal_of_grid ebd y m :
  1 ≤ m ≤ 12 →
  fold_left (gencal_step ebd m) (grid_days y m) ([], [])
  = ([], month_cal_of ebd m (grid_days y m))
  ∧ concat (month_cal_of ebd m (grid_days y m))
    = map (mk_cell ebd m) (grid_days y m)
  ∧ Forall week_row (month_cal_of ebd m (grid_days y m)).
Proof.
  intros Hm. unfold month_cal_of.
  destruct (gencal_loop_invariant ebd m (grid_days y m))
    as (week & mc & Hfold & Hcat & Hrows & Hlen & _).
  { intros i d. by apply weekday_grid_days. }
  rewrite Hfold. simpl.
  rewrite length_grid_days in Hlen.
  pose proof (total_days_mod_7 y m) as H7.
  pose proof (total_days_range y m Hm) as Ht.
  rewrite Z2Nat.id, H7 in Hlen by lia.
  destruct week; [|simpl in Hlen; lia].
  rewrite app_nil_r in Hcat. done.
Qed.

Lemma get_prev_next_months_ok y m :
  supported y m →
  get_prev_next_months y m
  = Ok (anchor (prev_month_of y m), anchor (next_month_of y m)).
Proof.
  intros ([Hy Hm] & H1 & H2). unfold MINYEAR, MAXYEAR in *.
  unfold get_prev_next_months, prev_month_of, next_month_of, anchor.
  assert (∀ y' m', 1 ≤ y' ≤ 9999 → 1 ≤ m' ≤ 12 →
                   new y' m' 1 = Ok (mkdate y' m' 1)) as Hnew.
  { intros y' m' ? Hm'. apply new_ok; [done|].
    pose proof (days_in_month_bounds y' m' Hm'). lia. }
  replace (m - 1 =? 0) with (m =? 1) by (repeat case Z.eqb_spec; lia).
  replace (m + 1 =? 13) with (m =? 12) by (repeat case Z.eqb_spec; lia).
  destruct (Z.eqb_spec m 1) as [->|Hm1].
  - assert (y ≠ 1) by congruence.
    change (1 =? 12) with false. cbv iota.
    rewrite !Hnew by lia. reflexivity.
  - destruct (Z.eqb_spec m 12) as [->|Hm12].
    + assert (y ≠ 9999) by congruence. rewrite !Hnew by lia. reflexivity.
    + rewrite !Hnew by lia. reflexivity.
Qed.

Lemma get_prev_next_months_1_1 : get_prev_next_months 1 1 = Err ValueError.
Proof. reflexivity. Qed.

Lemma get_prev_next_months_9999_12 :
  get_prev_next_months 9999 12 = Err ValueError.
Proof. reflexivity. Qed.

Lemma get_iterable_days_inv y m days :
  get_iterable_days y m = Ok days →
  valid_year_month y m ∧ (y, m) ≠ (9999, 12) ∧ days = grid_days y m.
Proof.
  intros Hok.
  destruct (decide (valid_year_month y m)) as [Hv|Hn].
  - destruct (decide ((y, m) = (9999, 12))) as [[= -> ->]|Hne].
    + by rewrite get_iterable_days_9999_12 in Hok.
    + rewrite get_iterable_days_ok in Hok by done. naive_solver.
  - exfalso. revert Hok.
    unfold get_iterable_days, get_iterable_days_extent, Calendar.monthrange,
      Calendar.weekday, new.
    unfold valid_year_month in Hn.
    destruct ((1 <=? m) && (m <=? 12)) eqn:Hm; [|done].
    destruct (c_int y && c_int m && c_int 1); [|done].
    destruct ((MINYEAR <=? y) && (y <=? MAXYEAR)) eqn:Hy; [|done].
    exfalso. apply Hn. lia.
Qed.

Lemma getattr_as_date field v d :
  as_date v = Some d → getattr field v = Ok (field d).
Proof. unfold getattr. by intros ->. Qed.

(** [gencal] returns for the supported months and accepted events. *)
Lemma gencal_ok date d items ebd :
  as_date date = Some d →
  supported (Datetime.year d) (Datetime.month d) →
  get_events_by_day items = Ok ebd →
  gencal date items = Ok (gencal_context date d ebd).
Proof.
  intros Hd Hs Hev. pose proof Hs as (Hv & H1 & H2).
  unfold gencal. rewrite !(getattr_as_date _ _ _ Hd). simpl.
  rewrite Hev. simpl.
  rewrite get_iterable_days_ok by done. simpl.
  destruct (month_cal_of_grid ebd (year d) (month d)) as (-> & _);
    [by destruct Hv|].
  rewrite get_prev_next_months_ok by done. reflexivity.
Qed.

(** It returns in no other case. *)
Lemma gencal_inv date items out :
  gencal date items = Ok out →
  ∃ d ebd, as_date date = Some d
    ∧ supported (Datetime.year d) (Datetime.month d)
    ∧ get_events_by_day items = Ok ebd
    ∧ out = gencal_context date d ebd.
Proof.
  intros Hok0. pose proof Hok0 as Hok. unfold gencal, getattr in Hok.
  destruct (as_date date) as [d|] eqn:Hd; [|done]. simpl in Hok.
  destruct (get_events_by_day items) as [ebd|] eqn:Hev; [|done].
  simpl in Hok.
  destruct (get_iterable_days _ _) as [days|] eqn:Hdays; [|done].
  simpl in Hok.
  apply get_iterable_days_inv in Hdays as (Hv & H2 & ->).
  assert ((year d, month d) ≠ (1, 1)) as H1.
  { intros [= Hy Hm]. rewrite Hy, Hm in Hok.
    destruct (fold_left _ _ _). by rewrite get_prev_next_months_1_1 in Hok. }
  assert (supported (year d) (month d)) as Hs by done.
  pose proof (gencal_ok date d items ebd Hd Hs Hev) as Hok'.
  exists d, ebd. split; [done|]. split; [done|]. split; [done|].
  rewrite Hok0 in Hok'. by injection Hok'.
Qed.


(** ** The grid covers the month *)

Lemma date_lt_irrefl d : ¬ date_lt d d.
Proof. unfold date_lt. lia. Qed.

Lemma day_at_0 y m : 1 ≤ m ≤ 12 → day_at y m 0 = mkdate y m 1.
Proof.
  intros Hm. pose proof (days_in_month_bounds y m Hm). unfold day_at.
  change (0 <? 0) with false. cbv iota.
  case Z.ltb_spec; intros; [done|lia].
Qed.

Lemma day_at_in_month y m k :
  0 ≤ k < _days_in_month y m → day_at y m k = mkdate y m (k + 1).
Proof.
  intros Hk. unfold day_at. repeat (case Z.ltb_spec; intros; try lia). done.
Qed.

Lemma day_at_lt y m k1 k2 :
  1 ≤ m ≤ 12 → -28 ≤ k1 → k1 < k2 → k2 < _days_in_month y m + 28 →
  date_lt (day_at y m k1) (day_at y m k2).
Proof.
  intros Hm Hk1 Hlt Hk2.
  pose proof (days_in_month_bounds y m Hm) as Hdim.
  pose proof (prev_next_month y m Hm) as Hp.
  pose proof (next_month_range y m Hm) as Hn.
  unfold day_at, date_lt.
  destruct (prev_month_of y m) as [py pm] eqn:Hpy.
  destruct (next_month_of y m) as [ny nm] eqn:Hny.
  destruct Hp as [Hpm _]. simpl in Hn.
  pose proof (days_in_month_bounds py pm Hpm).
  pose proof (days_in_month_bounds ny nm Hn).
  unfold prev_month_of in Hpy. unfold next_month_of in Hny.
  revert Hpy Hny. repeat case Z.eqb_spec; intros; simplify_eq;
    repeat (case Z.ltb_spec; intros; try lia); simpl; lia.
Qed.

Lemma day_at_region y m k :
  1 ≤ m ≤ 12 → -6 ≤ k < _days_in_month y m + 6 →
  in_target_month y m (day_at y m k)
  ∨ in_leading_pad y m (day_at y m k)
  ∨ in_trailing_pad y m (day_at y m k).
Proof.
  intros Hm Hk. unfold day_at.
  case Z.ltb_spec; intros Hk0.
  - right. left. unfold in_leading_pad.
    destruct (prev_month_of y m) as [py pm]. simpl. split; [done|lia].
  - case Z.ltb_spec; intros Hk1.
    + left. unfold in_target_month. simpl. split; [done|lia].
    + right. right. unfold in_trailing_pad.
      destruct (next_month_of y m) as [ny nm]. simpl. split; [done|lia].
Qed.

Lemma elem_of_concat {A} (x : A) (ls : list (list A)) :
  x ∈ concat ls ↔ ∃ l, l ∈ ls ∧ x ∈ l.
Proof.
  induction ls as [|l ls IH]; simpl.
  - split; [by intros ?%elem_of_nil|]. by intros (l & ?%elem_of_nil & _).
  - rewrite elem_of_app, IH. split.
    + intros [H|(l' & H1 & H2)]; [exists l; split; [left|done]|].
      exists l'. split; [by right|done].
    + intros (l' & [->|H1]%elem_of_cons & H2); [by left|].
      right. by exists l'.
Qed.

Lemma map_day_mk_cell ebd m days :
  map Gencal.day (map (mk_cell ebd m) days) = days.
Proof. rewrite map_map. simpl. apply map_id. Qed.

(** The cells of the dictionary returned for a month. *)
Lemma cells_gencal_context date d ebd :
  1 ≤ month d ≤ 12 →
  cells (gencal_context date d ebd)
  = map (mk_cell ebd (month d)) (grid_days (year d) (month d)).
Proof.
  intros Hm. unfold cells, gencal_context. simpl.
  by destruct (month_cal_of_grid ebd (year d) (month d) Hm) as (_ & -> & _).
Qed.

(** The dates of the grid, in order: strictly increasing, starting at most
    at the first of the month, ending at least at its last day, containing
    each day of the month at one index, and staying within the padding. *)
Lemma grid_days_cover y m :
  1 ≤ m ≤ 12 →
  let ds := grid_days y m in
  (∃ first, head ds = Some first ∧ date_le first (mkdate y m 1))
  ∧ (∃ final, last ds = Some final
       ∧ date_le (mkdate y m (_days_in_month y m)) final)
  ∧ (∀ (i j : nat) d1 d2,
       ds !! i = Some d1 → ds !! j = Some d2 → (i < j)%nat → date_lt d1 d2)
  ∧ (∀ k, 1 ≤ k ≤ _days_in_month y m →
       ∃ i : nat, ds !! i = Some (mkdate y m k)
         ∧ ∀ j : nat, ds !! j = Some (mkdate y m k) → j = i)
  ∧ (∀ c, c ∈ ds →
       in_target_month y m c ∨ in_leading_pad y m c ∨ in_trailing_pad y m c).
Proof.
  intros Hm ds.
  pose proof (days_in_month_bounds y m Hm) as Hdim.
  pose proof (head_days_range y m) as Hhd.
  pose proof (tail_days_range y m) as Htd.
  pose proof (total_days_range y m Hm) as Htot.
  assert (∀ (i j : nat) d1 d2,
       ds !! i = Some d1 → ds !! j = Some d2 → (i < j)%nat → date_lt d1 d2)
    as Hincr.
  { intros i j d1 d2 [Hi ->]%lookup_grid_days_inv [Hj ->]%lookup_grid_days_inv
      Hlt.
    unfold total_days_in_calendar in *. apply day_at_lt; (done || lia). }
  split; [|split; [|split; [done|split]]].
  - exists (day_at y m (- head_days y m)). subst ds. split.
    + rewrite head_lookup, lookup_grid_days by lia. f_equal; f_equal; lia.
    + rewrite <- day_at_0 by done.
      destruct (decide (head_days y m = 0)) as [->|Hne]; [by right|].
      left. apply day_at_lt; (done || lia).
  - exists (day_at y m (_days_in_month y m - 1 + tail_days y m)).
    subst ds. split.
    + rewrite last_lookup, length_grid_days, lookup_grid_days by lia.
      unfold total_days_in_calendar. f_equal; f_equal; lia.
    + replace (mkdate y m (_days_in_month y m))
        with (day_at y m (_days_in_month y m - 1))
        by (rewrite day_at_in_month by lia; f_equal; lia).
      destruct (decide (tail_days y m = 0)) as [->|Hne].
      * right. f_equal. lia.
      * left. apply day_at_lt; (done || lia).
  - intros k Hk.
    assert (ds !! Z.to_nat (head_days y m + k - 1) = Some (mkdate y m k))
      as Hi.
    { subst ds.
      rewrite lookup_grid_days by (unfold total_days_in_calendar; lia).
      replace (Z.of_nat (Z.to_nat (head_days y m + k - 1)) - head_days y m)
        with (k - 1) by lia.
      rewrite day_at_in_month by lia. do 2 f_equal; lia. }
    eexists. split; [exact Hi|]. intros j Hj.
    destruct (Nat.lt_total j (Z.to_nat (head_days y m + k - 1)))
      as [Hlt|[Heq|Hlt]]; [|done|].
    + by destruct (date_lt_irrefl _ (Hincr _ _ _ _ Hj Hi Hlt)).
    + by destruct (date_lt_irrefl _ (Hincr _ _ _ _ Hi Hj Hlt)).
  - intros c [i [Hi ->]%lookup_grid_days_inv]%list_elem_of_lookup.
    unfold total_days_in_calendar in *. apply day_at_region; [done|lia].
Qed.


(** ** The claims of the specification *)

(** Closed arithmetic facts, decided by computation. *)
Ltac closed_arith :=
  vm_compute; repeat split; (discriminate || reflexivity || congruence).

(** C1, amended.  For every month of [datetime.date] (year 1..9999, month
    1..12) other than January of year 1 and December of year 9999, and for
    every list of events that [get_events_by_day] accepts, [gencal] returns a
    grid whose cells, read row after row, cover the month: the first cell is
    dated at most the 1st, the last cell at least the last day, the dates
    increase strictly, every date of the month is the date of exactly one
    cell, and every other cell is one of the last six days of the previous
    month or one of the first six days of the next month. *)
Theorem gencal_covers_month (date : pyval) (d : Datetime.date)
    (cal_items : list (gmap string pyval)) :
  as_date date = Some d →
  supported (year d) (month d) →
  Forall well_formed_event cal_items →
  ∃ out, gencal date cal_items = Ok out
    ∧ covers_month (year d) (month d) (map Gencal.day (cells out)).
Proof.
  intros Hd Hs Hwf. pose proof Hs as ([_ Hm] & _).
  destruct (get_events_by_day_ok cal_items Hwf) as (ebd & Hev & _).
  exists (gencal_context date d ebd). split; [by apply gencal_ok|].
  rewrite cells_gencal_context, map_day_mk_cell by done.
  by apply grid_days_cover.
Qed.

Lemma gencal_covers_month_witness :
  ∃ out, gencal (PyDate (mkdate 2008 1 1)) [concert] = Ok out
    ∧ covers_month 2008 1 (map Gencal.day (cells out)).
Proof.
  apply (gencal_covers_month (PyDate (mkdate 2008 1 1)) (mkdate 2008 1 1)
           [concert]).
  - reflexivity.
  - closed_arith.
  - constructor; [|constructor].
    split; [exists (mkdate 2008 1 30); split; [reflexivity|closed_arith]|].
    eexists. reflexivity.
Defined.

(** December 9999 is a valid month of [datetime.date], and [gencal] returns
    no grid for it: the padding days after 9999-12-31 are out of range. *)
Lemma gencal_9999_12_raises :
  valid_year_month 9999 12
  ∧ gencal (PyDate (mkdate 9999 12 1)) [] = Err OverflowError
  ∧ ¬ ∃ out, gencal (PyDate (mkdate 9999 12 1)) [] = Ok out
             ∧ covers_month 9999 12 (map Gencal.day (cells out)).
Proof.
  split; [closed_arith|]. split; [vm_compute; reflexivity|].
  intros (out & Hout & _). vm_compute in Hout. discriminate Hout.
Qed.

(** C2.  For every month of [datetime.date], the number of days
    [get_iterable_days] sets out to enumerate, leading pad + days in the
    month + trailing pad, is a multiple of 7 between 28 and 42 (and at least
    28 + the leading pad), so that the assertion of [get_iterable_days]
    never fails; the generator yields that many days when it returns. *)
Theorem total_days_whole_weeks (y m : Z) :
  valid_year_month y m →
  ∃ first head_days days_in_month tail_days total,
    get_iterable_days_extent y m
    = Ok (first, head_days, days_in_month, tail_days, total)
    ∧ total = head_days + days_in_month + tail_days
    ∧ total mod 7 = 0
    ∧ 28 ≤ total ≤ 42
    ∧ 28 + head_days ≤ total
    ∧ get_iterable_days y m ≠ Err AssertionError
    ∧ ∀ days, get_iterable_days y m = Ok days →
              Z.of_nat (length days) = total.
Proof.
  intros Hv. pose proof Hv as [_ Hm].
  pose proof (total_days_range y m Hm) as Ht.
  pose proof (days_in_month_bounds y m Hm) as Hdim.
  pose proof (tail_days_range y m) as Htd.
  eexists _, _, _, _, _.
  split; [by apply get_iterable_days_extent_ok|].
  split; [reflexivity|]. split; [apply total_days_mod_7|].
  split; [done|]. split; [unfold total_days_in_calendar; lia|]. split.
  - destruct (decide ((y, m) = (9999, 12))) as [[= -> ->]|Hne].
    + by rewrite get_iterable_days_9999_12.
    + by rewrite get_iterable_days_ok.
  - intros days (_ & _ & ->)%get_iterable_days_inv.
    rewrite length_grid_days. lia.
Qed.

Lemma total_days_whole_weeks_witness :
  ∃ first head_days days_in_month tail_days total,
    get_iterable_days_extent 2008 2
    = Ok (first, head_days, days_in_month, tail_days, total)
    ∧ total = head_days + days_in_month + tail_days
    ∧ total mod 7 = 0
    ∧ 28 ≤ total ≤ 42
    ∧ 28 + head_days ≤ total
    ∧ get_iterable_days 2008 2 ≠ Err AssertionError
    ∧ ∀ days, get_iterable_days 2008 2 = Ok days →
              Z.of_nat (length days) = total.
Proof. apply (total_days_whole_weeks 2008 2). closed_arith. Defined.

(** C3, amended.  For every month of [datetime.date] other than December
    9999, the first day [get_iterable_days] yields is the first of the month
    minus its [weekday()] days and is a Monday, and the last day it yields
    is the last of the month plus 6 minus its [weekday()] days and is a
    Sunday; every row of a grid returned by [gencal] has seven cells, Monday
    first through Sunday, and the rows hold the enumerated days in order. *)
Theorem grid_monday_to_sunday (y m : Z) :
  valid_year_month y m → (y, m) ≠ (9999, 12) →
  ∃ days first final,
    get_iterable_days y m = Ok days
    ∧ head days = Some first
    ∧ Datetime.sub (mkdate y m 1) (Datetime.weekday (mkdate y m 1))
      = Ok first
    ∧ Datetime.weekday first = 0
    ∧ last days = Some final
    ∧ Datetime.add (mkdate y m (_days_in_month y m))
        (6 - Datetime.weekday (mkdate y m (_days_in_month y m)))
      = Ok final
    ∧ Datetime.weekday final = 6
    ∧ ∀ date d cal_items out,
        as_date date = Some d → year d = y → month d = m →
        gencal date cal_items = Ok out →
        Forall week_row (month_cal out)
        ∧ map Gencal.day (cells out) = days.
Proof.
  intros Hv Hne. pose proof Hv as [Hy Hm].
  pose proof (days_in_month_bounds y m Hm) as Hdim.
  pose proof (head_days_range y m) as Hhd.
  pose proof (tail_days_range y m) as Htd.
  pose proof (total_days_range y m Hm) as Htot.
  pose proof (first_ordinal_bounds y m Hv) as (Ho1 & Ho2 & Ho3 & Ho4).
  specialize (Ho4 Hne).
  pose proof (get_iterable_days_extent_ok y m Hv) as Hext.
  exists (grid_days y m), (day_at y m (- head_days y m)),
    (day_at y m (_days_in_month y m - 1 + tail_days y m)).
  split; [by apply get_iterable_days_ok|].
  split; [rewrite head_lookup, lookup_grid_days by lia; f_equal; f_equal; lia|].
  split.
  { unfold get_iterable_days_extent in Hext.
    rewrite monthrange_ok in Hext by done. simpl in Hext.
    rewrite !new_ok in Hext by (done || lia). simpl in Hext.
    fold (head_days y m) in *.
    destruct (Datetime.sub _ _); simpl in Hext; congruence. }
  split.
  { rewrite weekday_day_at by done. fold (head_days y m).
    replace (head_days y m + - head_days y m) with 0 by lia. done. }
  split.
  { rewrite last_lookup, length_grid_days, lookup_grid_days by lia.
    unfold total_days_in_calendar. f_equal; f_equal; lia. }
  split.
  { fold (tail_days y m).
    replace (mkdate y m (_days_in_month y m))
      with (day_at y m (_days_in_month y m - 1))
      by (rewrite day_at_in_month by lia; f_equal; lia).
    apply add_day_at; [done|lia|]. unfold _MAXORDINAL in *. lia. }
  split.
  { rewrite weekday_day_at by done.
    pose proof (total_days_mod_7 y m) as H7.
    unfold total_days_in_calendar in H7. fold (head_days y m).
    Z.div_mod_to_equations; lia. }
  intros date d cal_items out Hd <- <- Hout.
  apply gencal_inv in Hout as (d' & ebd & Hd' & _ & _ & ->).
  assert (d' = d) as -> by congruence.
  rewrite cells_gencal_context, map_day_mk_cell by done.
  split; [|done]. unfold gencal_context. simpl.
  by destruct (month_cal_of_grid ebd (year d) (month d) Hm) as (_ & _ & ?).
Qed.

Lemma grid_monday_to_sunday_witness :
  ∃ days first final,
    get_iterable_days 2008 2 = Ok days
    ∧ head days = Some first
    ∧ Datetime.sub (mkdate 2008 2 1) (Datetime.weekday (mkdate 2008 2 1))
      = Ok first
    ∧ Datetime.weekday first = 0
    ∧ last days = Some final
    ∧ Datetime.add (mkdate 2008 2 (_days_in_month 2008 2))
        (6 - Datetime.weekday (mkdate 2008 2 (_days_in_month 2008 2)))
      = Ok final
    ∧ Datetime.weekday final = 6
    ∧ ∀ date d cal_items out,
        as_date date = Some d → year d = 2008 → month d = 2 →
        gencal date cal_items = Ok out →
        Forall week_row (month_cal out)
        ∧ map Gencal.day (cells out) = days.
Proof. apply (grid_monday_to_sunday 2008 2); closed_arith. Defined.

(** For December 9999 there is no Sunday to end on: the last day of the
    month is a Friday, the two days to add leave the range of
    [datetime.date], and the generator raises. *)
Lemma get_iterable_days_9999_12_raises :
  valid_year_month 9999 12
  ∧ Datetime.weekday (mkdate 9999 12 31) = 4
  ∧ Datetime.add (mkdate 9999 12 31)
      (6 - Datetime.weekday (mkdate 9999 12 31)) = Err OverflowError
  ∧ get_iterable_days 9999 12 = Err OverflowError.
Proof. split; [closed_arith|]. repeat split; vm_compute; reflexivity. Qed.

(** C4, amended.  For every month of [datetime.date] other than January of
    year 1 and December of year 9999, [get_prev_next_months] returns the
    first of the previous month and the first of the next month: for month 1
    the previous anchor is (year - 1, 12, 1), for month 12 the next anchor is
    (year + 1, 1, 1), and otherwise the year is unchanged; these are the
    [prev_date] and [next_date] of the dictionary [gencal] returns. *)
Theorem prev_next_anchors (y m : Z) :
  supported y m →
  ∃ prev next,
    get_prev_next_months y m = Ok (prev, next)
    ∧ prev = (if decide (m = 1) then mkdate (y - 1) 12 1
              else mkdate y (m - 1) 1)
    ∧ next = (if decide (m = 12) then mkdate (y + 1) 1 1
              else mkdate y (m + 1) 1)
    ∧ ∀ date d cal_items out,
        as_date date = Some d → year d = y → month d = m →
        gencal date cal_items = Ok out →
        prev_date out = prev ∧ next_date out = next.
Proof.
  intros Hs.
  exists (anchor (prev_month_of y m)), (anchor (next_month_of y m)).
  split; [by apply get_prev_next_months_ok|].
  split; [unfold anchor, prev_month_of;
          case_decide; case Z.eqb_spec; intros; (done || lia)|].
  split; [unfold anchor, next_month_of;
          case_decide; case Z.eqb_spec; intros; (done || lia)|].
  intros date d cal_items out Hd <- <- Hout.
  apply gencal_inv in Hout as (d' & ebd & Hd' & _ & _ & ->).
  assert (d' = d) as -> by congruence. done.
Qed.

Lemma prev_next_anchors_witness :
  ∃ prev next,
    get_prev_next_months 2008 12 = Ok (prev, next)
    ∧ prev = (if decide (12 = 1) then mkdate (2008 - 1) 12 1
              else mkdate 2008 (12 - 1) 1)
    ∧ next = (if decide (12 = 12) then mkdate (2008 + 1) 1 1
              else mkdate 2008 (12 + 1) 1)
    ∧ ∀ date d cal_items out,
        as_date date = Some d → year d = 2008 → month d = 12 →
        gencal date cal_items = Ok out →
        prev_date out = prev ∧ next_date out = next.
Proof. apply (prev_next_anchors 2008 12). closed_arith. Defined.

(** January of year 1 is a valid month of [datetime.date], and it has no
    previous anchor: [datetime.date(0, 12, 1)] raises. *)
Lemma get_prev_next_months_1_1_raises :
  valid_year_month 1 1
  ∧ get_prev_next_months 1 1 = Err ValueError
  ∧ ¬ ∃ prev next, get_prev_next_months 1 1 = Ok (prev, next).
Proof.
  split; [closed_arith|]. split; [reflexivity|].
  intros (prev & next & H). discriminate H.
Qed.

(** C5.  In every cell of a grid returned by [gencal], [in_month] is true
    if and only if the month number of the cell's date is the requested
    month; a cell is either a day of the requested month with [in_month]
    true, or a padding day of the previous or of the next month with
    [in_month] false. *)
Theorem in_month_flag (date : pyval) (d : Datetime.date)
    (cal_items : list (gmap string pyval)) (out : context) :
  as_date date = Some d →
  gencal date cal_items = Ok out →
  ∀ week c, week ∈ month_cal out → c ∈ week →
    (in_month c = true ↔ month (Gencal.day c) = month d)
    ∧ ((in_target_month (year d) (month d) (Gencal.day c)
        ∧ in_month c = true)
       ∨ ((in_leading_pad (year d) (month d) (Gencal.day c)
           ∨ in_trailing_pad (year d) (month d) (Gencal.day c))
          ∧ in_month c = false)).
Proof.
  intros Hd Hout week c Hweek Hc.
  apply gencal_inv in Hout as (d' & ebd & Hd' & Hs & _ & ->).
  assert (d' = d) as -> by congruence.
  destruct Hs as ([_ Hm] & _).
  assert (c ∈ cells (gencal_context date d ebd)) as Hcell.
  { apply elem_of_concat. by exists week. }
  rewrite cells_gencal_context in Hcell by done.
  apply list_elem_of_fmap in Hcell as (dd & -> & Hdd).
  apply grid_days_cover in Hdd; [|done].
  unfold mk_cell. simpl. split; [apply Z.eqb_eq|].
  unfold in_target_month, in_leading_pad, in_trailing_pad in *.
  unfold prev_month_of, next_month_of in *.
  destruct Hdd as [[Heq ?]|[[Heq ?]|[Heq ?]]].
  - left. split; [done|]. apply Z.eqb_eq. by injection Heq.
  - right. split; [by left|]. apply Z.eqb_neq.
    revert Heq. case Z.eqb_spec; intros ? [= Hy' Hm']; lia.
  - right. split; [by right|]. apply Z.eqb_neq.
    revert Heq. case Z.eqb_spec; intros ? [= Hy' Hm']; lia.
Qed.

Lemma in_month_flag_witness :
  ∃ out, gencal (PyDate (mkdate 2008 1 1)) [concert] = Ok out
  ∧ ∀ week c, week ∈ month_cal out → c ∈ week →
    (in_month c = true ↔ month (Gencal.day c) = 1)
    ∧ ((in_target_month 2008 1 (Gencal.day c) ∧ in_month c = true)
       ∨ ((in_leading_pad 2008 1 (Gencal.day c)
           ∨ in_trailing_pad 2008 1 (Gencal.day c))
          ∧ in_month c = false)).
Proof.
  eexists. split; [vm_compute; reflexivity|].
  apply (in_month_flag (PyDate (mkdate 2008 1 1)) (mkdate 2008 1 1)
           [concert]); [reflexivity|vm_compute; reflexivity].
Defined.

Lemma grouped_timestamp e ce :
  grouped e = Some ce → e !! "day" = Some (timestamp ce).
Proof.
  unfold grouped.
  destruct (e !! "title"), (e !! "url"), (e !! "class"), (e !! "day");
    simpl; try done. intros H. by simplify_eq.
Qed.

Lemma well_formed_grouped e : well_formed_event e → ∃ ce, grouped e = Some ce.
Proof. intros [_ [ce ?]]. by exists ce. Qed.

Lemma gencal_cell_events (date : pyval)
    (cal_items : list (gmap string pyval)) (out : context) :
  gencal date cal_items = Ok out →
  ∀ week c, week ∈ month_cal out → c ∈ week →
    event c = events_for (Gencal.day c) cal_items
    ∧ ∀ e v, e ∈ cal_items → e !! "day" = Some v →
             as_date v = Some (Gencal.day c) →
             ∃ ce, grouped e = Some ce ∧ ce ∈ event c ∧ timestamp ce = v.
Proof.
  intros Hout week c Hweek Hc.
  apply gencal_inv in Hout as (d & ebd & Hd & Hs & Hev & ->).
  destruct Hs as ([_ Hm] & _).
  apply get_events_by_day_inv in Hev as [Hwf Hev].
  assert (c ∈ cells (gencal_context date d ebd)) as Hcell.
  { apply elem_of_concat. by exists week. }
  rewrite cells_gencal_context in Hcell by done.
  apply list_elem_of_fmap in Hcell as (dd & -> & Hdd).
  unfold mk_cell. simpl. rewrite Hev. split; [done|].
  intros e v He Hday Hv.
  rewrite Forall_forall in Hwf.
  destruct (well_formed_grouped e (Hwf e He)) as [ce Hce].
  exists ce. split; [done|]. split.
  - apply list_elem_of_omap. exists e. split; [done|].
    rewrite decide_True; [done|]. unfold event_key. by rewrite Hday.
  - apply grouped_timestamp in Hce. congruence.
Qed.

(** The dates within the grid are the dates [get_iterable_days] yields. *)
Lemma in_grid_elem y m k :
  1 ≤ m ≤ 12 → in_grid y m k ↔ k ∈ grid_days y m.
Proof.
  intros Hm. pose proof (head_days_range y m) as Hh.
  pose proof (tail_days_range y m) as Ht.
  unfold in_grid. change (toordinal (mkdate y m 1)) with (_ymd2ord y m 1).
  split.
  - intros [Hwf Hr]. apply list_elem_of_lookup.
    exists (Z.to_nat (toordinal k - _ymd2ord y m 1 + head_days y m)).
    rewrite lookup_grid_days by (unfold total_days_in_calendar; lia).
    f_equal. apply wf_date_eq; [|done|].
    + apply day_at_wf; [done|lia].
    + rewrite toordinal_day_at by done. lia.
  - intros [i [Hi ->]%lookup_grid_days_inv]%list_elem_of_lookup.
    unfold total_days_in_calendar in Hi.
    split; [apply day_at_wf; [done|lia]|].
    rewrite toordinal_day_at by done. lia.
Qed.

(** An input event dated within the grid has a cell, and is in it. *)
Lemma gencal_event_cell date d cal_items out e k :
  as_date date = Some d → gencal date cal_items = Ok out →
  e ∈ cal_items → event_key e = Some k → in_grid (year d) (month d) k →
  ∃ week c ce, week ∈ month_cal out ∧ c ∈ week ∧ Gencal.day c = k
               ∧ grouped e = Some ce ∧ ce ∈ event c.
Proof.
  intros Hd Hout He Hk Hin. pose proof Hout as Hout'.
  apply gencal_inv in Hout' as (d' & ebd & Hd' & Hs & Hev & Hctx).
  assert (d' = d) as -> by congruence.
  destruct Hs as ([_ Hm] & _).
  apply in_grid_elem in Hin; [|done].
  assert (mk_cell ebd (month d) k ∈ cells out) as Hcell.
  { rewrite Hctx, cells_gencal_context by done.
    apply list_elem_of_fmap. by exists k. }
  apply elem_of_concat in Hcell as (week & Hweek & Hc).
  destruct (gencal_cell_events date cal_items out Hout week _ Hweek Hc)
    as [_ Hall].
  unfold event_key in Hk.
  destruct (e !! "day") as [v|] eqn:Hday; [|done]. simpl in Hk.
  destruct (Hall e v He Hday Hk) as (ce & Hg & Hce & _).
  by exists week, (mk_cell ebd (month d) k), ce.
Qed.

(** The events of a cell carry the date of the cell. *)
Lemma cell_event_date date cal_items out week c ce :
  gencal date cal_items = Ok out → week ∈ month_cal out → c ∈ week →
  ce ∈ event c → as_date (timestamp ce) = Some (Gencal.day c).
Proof.
  intros Hout Hweek Hc Hce.
  destruct (gencal_cell_events date cal_items out Hout week c Hweek Hc)
    as [Hev _].
  rewrite Hev in Hce. apply list_elem_of_omap in Hce as (e & He & Hsome).
  case_decide as Hk; [|done]. apply grouped_timestamp in Hsome.
  unfold event_key in Hk. by rewrite Hsome in Hk.
Qed.

(** C6, amended.  In a grid returned by [gencal], every input event whose
    date lies within the grid is attached to the cell of that date: the cell
    exists, the dictionary of the event is among its events, and it is among
    the events of no cell of another date.  The date of an event is made of
    the year, month and day of its ['day'] value; whatever else the value
    carries (a time of day) plays no part.  The events of a cell are the
    dictionaries of the input events of its date, in input order, and each
    keeps the unchanged ['day'] value as ['timestamp']. *)
Theorem events_grouped_by_date (date : pyval) (d : Datetime.date)
    (cal_items : list (gmap string pyval)) (out : context) :
  as_date date = Some d →
  gencal date cal_items = Ok out →
  (∀ e, e ∈ cal_items →
     ∃ v k ce,
       e !! "day" = Some v ∧ as_date v = Some k
       ∧ grouped e = Some ce ∧ timestamp ce = v
       ∧ (in_grid (year d) (month d) k →
          ∃ week c, week ∈ month_cal out ∧ c ∈ week
                    ∧ Gencal.day c = k ∧ ce ∈ event c)
       ∧ (∀ week c, week ∈ month_cal out → c ∈ week →
                    ce ∈ event c → Gencal.day c = k))
  ∧ (∀ week c, week ∈ month_cal out → c ∈ week →
       event c = events_for (Gencal.day c) cal_items).
Proof.
  intros Hd Hout. split.
  - intros e He. pose proof Hout as Hout'.
    apply gencal_inv in Hout' as (d' & ebd & _ & _ & Hev & _).
    apply get_events_by_day_inv in Hev as [Hwf _].
    rewrite Forall_forall in Hwf.
    destruct (Hwf e He) as [(k & Hk & _) [ce Hce]].
    pose proof (grouped_timestamp e ce Hce) as Hts.
    assert (as_date (timestamp ce) = Some k) as Hkk.
    { unfold event_key in Hk. by rewrite Hts in Hk. }
    exists (timestamp ce), k, ce. repeat split; try done.
    + intros Hin.
      destruct (gencal_event_cell date d cal_items out e k Hd Hout He Hk Hin)
        as (week & c & ce' & ? & ? & ? & Hg & ?).
      assert (ce' = ce) as -> by congruence. by exists week, c.
    + intros week c Hweek Hc Hin.
      pose proof (cell_event_date date cal_items out week c ce
                    Hout Hweek Hc Hin).
      congruence.
  - intros week c Hweek Hc.
    by destruct (gencal_cell_events date cal_items out Hout week c Hweek Hc)
      as [? _].
Qed.

(** January 2008 with two events of 2008-01-30, the later one first in the
    input, and an event of March between them: the cell of 2008-01-30 holds
    the two, in input order. *)
Lemma events_grouped_by_date_witness :
  ∃ out,
    gencal (PyDate (mkdate 2008 1 1)) [concert; barbecue; matinee] = Ok out
    ∧ ∃ week c, week ∈ month_cal out ∧ c ∈ week
        ∧ Gencal.day c = mkdate 2008 1 30
        ∧ event c
          = [mk_cal_event (PyStr "Concert") (PyStr "/foo/2") (PyStr "concert")
               (PyDateTime (mkdate 2008 1 30) 14 0 0 0);
             mk_cal_event (PyStr "Matinee") (PyStr "/foo/3") (PyStr "concert")
               (PyDateTime (mkdate 2008 1 30) 10 30 0 0)].
Proof.
  eexists. split; [vm_compute; reflexivity|].
  match goal with
  | |- ∃ week c, week ∈ month_cal ?out ∧ _ =>
      destruct (events_grouped_by_date (PyDate (mkdate 2008 1 1))
                  (mkdate 2008 1 1) [concert; barbecue; matinee] out)
        as [Hev Hcells]; [reflexivity|vm_compute; reflexivity|]
  end.
  destruct (Hev concert) as (v & k & ce & Hday & Hk & _ & _ & Hin & _);
    [repeat constructor|].
  vm_compute in Hday. injection Hday as <-.
  simpl in Hk. injection Hk as <-.
  destruct Hin as (week & c & Hweek & Hc & Hdate & _);
    [split; closed_arith|].
  exists week, c. repeat split; try done.
  rewrite (Hcells week c Hweek Hc), Hdate. vm_compute. reflexivity.
Defined.

(** An event of 2008-03-15 passed with February 2008: [gencal] returns, no
    cell of the grid has the date of the event, and no cell has an event. *)
Lemma event_without_cell :
  event_key barbecue = Some (mkdate 2008 3 15)
  ∧ ∃ out, gencal (PyDate (mkdate 2008 2 1)) [barbecue] = Ok out
      ∧ Forall (λ c, Gencal.day c ≠ mkdate 2008 3 15 ∧ event c = [])
               (cells out).
Proof.
  split; [reflexivity|].
  eexists. split; [vm_compute; reflexivity|].
  vm_compute. repeat (constructor; [split; [discriminate|reflexivity]|]).
  constructor.
Qed.

(** The event of 2008-01-30 at 14:00 is in the cell of 2008-01-30, and in no
    other cell. *)
Example concert_cell :
  ∃ out, gencal (PyDate (mkdate 2008 1 1)) [concert] = Ok out
  ∧ map (λ c, (Gencal.day c, event c))
        (filter (λ c, event c ≠ []) (cells out))
    = [(mkdate 2008 1 30,
        [mk_cal_event (PyStr "Concert") (PyStr "/foo/2") (PyStr "concert")
           (PyDateTime (mkdate 2008 1 30) 14 0 0 0)])].
Proof. eexists. split; vm_compute; reflexivity. Qed.

(** C7.  February 2008 (a leap year: 29 days, starting on a Friday) gives
    a grid of 5 weeks, 35 cells; the cell dated 2008-02-01 has [in_month]
    true and the cell dated 2008-01-28, the Monday before, has [in_month]
    false. *)
Theorem february_2008 (date : pyval) (d : Datetime.date)
    (cal_items : list (gmap string pyval)) :
  as_date date = Some d → year d = 2008 → month d = 2 →
  Forall well_formed_event cal_items →
  _is_leap 2008 = true
  ∧ _days_in_month 2008 2 = 29
  ∧ Datetime.weekday (mkdate 2008 2 1) = 4
  ∧ Datetime.weekday (mkdate 2008 1 28) = 0
  ∧ ∃ out, gencal date cal_items = Ok out
      ∧ length (month_cal out) = 5%nat
      ∧ length (cells out) = 35%nat
      ∧ (∃ c, c ∈ cells out ∧ Gencal.day c = mkdate 2008 2 1)
      ∧ (∀ c, c ∈ cells out → Gencal.day c = mkdate 2008 2 1 →
              in_month c = true)
      ∧ (∃ c, c ∈ cells out ∧ Gencal.day c = mkdate 2008 1 28)
      ∧ (∀ c, c ∈ cells out → Gencal.day c = mkdate 2008 1 28 →
              in_month c = false).
Proof.
  intros Hd Hy Hm Hwf.
  do 4 (split; [reflexivity|]).
  destruct (get_events_by_day_ok cal_items Hwf) as (ebd & Hev & _).
  assert (supported (year d) (month d)) as Hs
    by (rewrite Hy, Hm; closed_arith).
  exists (gencal_context date d ebd). split; [by apply gencal_ok|].
  assert (1 ≤ month d ≤ 12) as Hm12 by lia.
  pose proof (cells_gencal_context date d ebd Hm12) as Hcells.
  destruct (month_cal_of_grid ebd (year d) (month d) Hm12) as (_ & _ & Hrows).
  pose proof (length_concat_rows _ Hrows) as Hlen.
  change (concat (month_cal_of ebd (month d) (grid_days (year d) (month d))))
    with (cells (gencal_context date d ebd)) in Hlen.
  change (month_cal (gencal_context date d ebd))
    with (month_cal_of ebd (month d) (grid_days (year d) (month d))).
  rewrite Hcells in *. rewrite Hy, Hm in *.
  assert (length (grid_days 2008 2) = 35%nat) as Hl35 by reflexivity.
  rewrite length_map, Hl35 in Hlen.
  split; [lia|]. split; [by rewrite length_map|].
  split; [|split; [|split]].
  - exists (mk_cell ebd 2 (mkdate 2008 2 1)). split; [|done].
    apply list_elem_of_fmap. eexists. split; [done|].
    apply list_elem_of_lookup. by exists 4%nat.
  - intros c (dd & -> & _)%list_elem_of_fmap. simpl. by intros ->.
  - exists (mk_cell ebd 2 (mkdate 2008 1 28)). split; [|done].
    apply list_elem_of_fmap. eexists. split; [done|].
    apply list_elem_of_lookup. by exists 0%nat.
  - intros c (dd & -> & _)%list_elem_of_fmap. simpl. by intros ->.
Qed.

Lemma february_2008_witness :
  _is_leap 2008 = true
  ∧ _days_in_month 2008 2 = 29
  ∧ Datetime.weekday (mkdate 2008 2 1) = 4
  ∧ Datetime.weekday (mkdate 2008 1 28) = 0
  ∧ ∃ out, gencal (PyDateTime (mkdate 2008 2 14) 9 30 0 0) [concert] = Ok out
      ∧ length (month_cal out) = 5%nat
      ∧ length (cells out) = 35%nat
      ∧ (∃ c, c ∈ cells out ∧ Gencal.day c = mkdate 2008 2 1)
      ∧ (∀ c, c ∈ cells out → Gencal.day c = mkdate 2008 2 1 →
              in_month c = true)
      ∧ (∃ c, c ∈ cells out ∧ Gencal.day c = mkdate 2008 1 28)
      ∧ (∀ c, c ∈ cells out → Gencal.day c = mkdate 2008 1 28 →
              in_month c = false).
Proof.
  apply (february_2008 (PyDateTime (mkdate 2008 2 14) 9 30 0 0)
           (mkdate 2008 2 14) [concert]); try reflexivity.
  constructor; [|constructor].
  split; [exists (mkdate 2008 1 30); split; [reflexivity|closed_arith]|].
  eexists. reflexivity.
Defined.

Lemma get_iterable_days_illegal_month y m :
  ¬ (1 ≤ m ≤ 12) → get_iterable_days y m = Err IllegalMonthError.
Proof.
  intros Hm.
  unfold get_iterable_days, get_iterable_days_extent, Calendar.monthrange.
  destruct ((1 <=? m) && (m <=? 12)) eqn:Hb; [|done].
  exfalso. apply Hm. lia.
Qed.

(** C8, amended.  When the month of the [date] argument is not in 1..12,
    [gencal] raises and returns nothing; the exception is
    [calendar.IllegalMonthError] whenever [get_events_by_day] accepts the
    events, which are grouped before the month is looked at. *)
Theorem illegal_month_rejected (date : pyval) (d : Datetime.date)
    (cal_items : list (gmap string pyval)) :
  as_date date = Some d →
  ¬ (1 ≤ month d ≤ 12) →
  (∃ x, gencal date cal_items = Err x)
  ∧ (Forall well_formed_event cal_items →
     gencal date cal_items = Err IllegalMonthError).
Proof.
  intros Hd Hm.
  assert (∀ ebd, get_events_by_day cal_items = Ok ebd →
                 gencal date cal_items = Err IllegalMonthError) as Hok.
  { intros ebd Hev. unfold gencal.
    rewrite !(getattr_as_date _ _ _ Hd). simpl. rewrite Hev. simpl.
    by rewrite get_iterable_days_illegal_month. }
  split.
  - destruct (get_events_by_day cal_items) as [ebd|x] eqn:Hev.
    + exists IllegalMonthError. by eapply Hok.
    + exists x. unfold gencal.
      rewrite !(getattr_as_date _ _ _ Hd). simpl. by rewrite Hev.
  - intros (ebd & Hev & _)%get_events_by_day_ok. by eapply Hok.
Qed.

Lemma illegal_month_rejected_witness :
  (∃ x, gencal (PyDate (mkdate 2008 13 1)) [concert] = Err x)
  ∧ (Forall well_formed_event [concert] →
     gencal (PyDate (mkdate 2008 13 1)) [concert] = Err IllegalMonthError).
Proof.
  apply (illegal_month_rejected (PyDate (mkdate 2008 13 1)) (mkdate 2008 13 1)
           [concert]); [reflexivity|]. simpl. lia.
Defined.

Example month_0_and_13 :
  gencal (PyDate (mkdate 2008 0 1)) [] = Err IllegalMonthError
  ∧ gencal (PyDate (mkdate 2008 13 1)) [] = Err IllegalMonthError.
Proof. split; reflexivity. Qed.

(** With month 13 and an event without ['day'], the exception is the
    [KeyError] of the event, not the error of the month. *)
Lemma illegal_month_malformed_event :
  ¬ (1 ≤ month (mkdate 2008 13 1) ≤ 12)
  ∧ gencal (PyDate (mkdate 2008 13 1)) [∅] = Err KeyError
  ∧ gencal (PyDate (mkdate 2008 13 1)) [∅] ≠ Err IllegalMonthError.
Proof. split; [simpl; lia|]. split; [reflexivity|discriminate]. Qed.

(** C9, amended.  When an event of the input has no ['day'], or a ['day']
    value that does not have the attributes of a valid date, [gencal] raises
    the exception of the first event [get_events_by_day] does not accept:
    [KeyError], [AttributeError], or the [ValueError] or [OverflowError] of
    the constructor of [datetime.date].  When [gencal] returns, every input
    event is well formed, and every input event whose date lies within the
    grid is in the output: the cell of its date exists and holds the
    dictionary of the event. *)
Theorem malformed_event_rejected (date : pyval) (d : Datetime.date)
    (cal_items : list (gmap string pyval)) :
  as_date date = Some d →
  (∀ e, e ∈ cal_items →
        ¬ (∃ k, event_key e = Some k ∧ valid_date k) →
        ∃ x, gencal date cal_items = Err x ∧ event_error x
             ∧ get_events_by_day cal_items = Err x)
  ∧ (∀ out, gencal date cal_items = Ok out →
       Forall well_formed_event cal_items
       ∧ ∀ e k, e ∈ cal_items → event_key e = Some k →
           in_grid (year d) (month d) k →
           ∃ week c ce, week ∈ month_cal out ∧ c ∈ week
                        ∧ Gencal.day c = k
                        ∧ grouped e = Some ce ∧ ce ∈ event c).
Proof.
  intros Hd. split.
  - intros e He Hbad.
    destruct (get_events_by_day_error cal_items) as (x & Hev & Hx).
    { rewrite Forall_forall. intros Hall. apply Hbad.
      by destruct (Hall e He) as [? _]. }
    exists x. split; [|done]. unfold gencal.
    rewrite !(getattr_as_date _ _ _ Hd). simpl. by rewrite Hev.
  - intros out Hout. pose proof Hout as Hout'.
    apply gencal_inv in Hout' as (d' & ebd & _ & _ & Hev & _).
    apply get_events_by_day_inv in Hev as [Hwf _]. split; [done|].
    intros e k He Hk Hin.
    by apply (gencal_event_cell date d cal_items out e k).
Qed.

(** January 2008.  With the concert and an event without keys, [gencal]
    raises; with the concert and an event of March, it returns and the
    concert is in the cell of 2008-01-30. *)
Lemma malformed_event_rejected_witness :
  (∃ x, gencal (PyDate (mkdate 2008 1 1)) [concert; ∅] = Err x
        ∧ event_error x
        ∧ get_events_by_day [concert; ∅] = Err x)
  ∧ ∃ out, gencal (PyDate (mkdate 2008 1 1)) [concert; barbecue] = Ok out
      ∧ Forall well_formed_event [concert; barbecue]
      ∧ ∃ week c ce, week ∈ month_cal out ∧ c ∈ week
          ∧ Gencal.day c = mkdate 2008 1 30
          ∧ grouped concert = Some ce ∧ ce ∈ event c.
Proof.
  split.
  - destruct (malformed_event_rejected (PyDate (mkdate 2008 1 1))
                (mkdate 2008 1 1) [concert; ∅]) as [Hbad _]; [reflexivity|].
    apply (Hbad ∅); [repeat constructor|].
    intros (k & Hk & _). discriminate Hk.
  - eexists. split; [vm_compute; reflexivity|].
    match goal with
    | |- _ ∧ ∃ week c ce, week ∈ month_cal ?out ∧ _ =>
        destruct (malformed_event_rejected (PyDate (mkdate 2008 1 1))
                    (mkdate 2008 1 1) [concert; barbecue]) as [_ Hgood];
          [reflexivity|];
        destruct (Hgood out) as [Hwf Hin]; [vm_compute; reflexivity|]
    end.
    split; [done|].
    apply (Hin concert (mkdate 2008 1 30));
      [repeat constructor|reflexivity|split; closed_arith].
Defined.

Example event_without_day :
  gencal (PyDate (mkdate 2008 1 1)) [concert; ∅] = Err KeyError
  ∧ gencal (PyDate (mkdate 2008 1 1))
      [<["day" := PyStr "2008-01-30"]> concert] = Err AttributeError.
Proof. split; reflexivity. Qed.

(** The two exceptions of the constructor: a day that is not a day of the
    month, and a year that is not a C [int]. *)
Example event_with_bad_date :
  gencal (PyDate (mkdate 2008 1 1))
    [<["day" := PyDate (mkdate 2008 2 30)]> concert] = Err ValueError
  ∧ gencal (PyDate (mkdate 2008 1 1))
      [<["day" := PyDate (mkdate (2 ^ 31) 1 30)]> concert]
    = Err OverflowError.
Proof. split; reflexivity. Qed.

(** A well-formed event dated 2008-03-15 passed with January 2008: the build
    succeeds and the event is in no cell. *)
Lemma event_outside_grid_dropped :
  well_formed_event barbecue
  ∧ ∃ out, gencal (PyDate (mkdate 2008 1 1)) [barbecue] = Ok out
      ∧ Forall (λ c, event c = []) (cells out).
Proof.
  split.
  - split; [exists (mkdate 2008 3 15); split; [reflexivity|closed_arith]|].
    eexists. reflexivity.
  - eexists. split; [vm_compute; reflexivity|].
    vm_compute. repeat constructor.
Qed.

Lemma get_events_by_day_loop_agree k items : ∀ a b,
  agree_except k a b →
  same_outcome k (get_events_by_day_loop a items)
                 (get_events_by_day_loop b items).
Proof.
  induction items as [|e items IH]; intros a b Hab; [done|].
  rewrite !get_events_by_day_loop_cons.
  destruct (group_event e) as [[d ce]|x]; [|done].
  apply IH. intros d' Hd'. rewrite !events_on_insert.
  case_decide; [|by apply Hab]. subst d'. by rewrite Hab.
Qed.

Lemma get_events_by_day_loop_skip k ce e items2 :
  group_event e = Ok (k, ce) →
  ∀ items1 acc,
    same_outcome k (get_events_by_day_loop acc (items1 ++ e :: items2))
                   (get_events_by_day_loop acc (items1 ++ items2)).
Proof.
  intros He. induction items1 as [|e1 items1 IH]; intros acc.
  - simpl app. rewrite get_events_by_day_loop_cons, He.
    apply get_events_by_day_loop_agree.
    intros d Hd. rewrite events_on_insert. by rewrite decide_False.
  - simpl app. rewrite !get_events_by_day_loop_cons.
    destruct (group_event e1) as [[d1 ce1]|x]; [|done]. apply IH.
Qed.

Lemma grouped_event_key e1 e2 ce :
  grouped e1 = Some ce → grouped e2 = Some ce → event_key e1 = event_key e2.
Proof.
  intros H1%grouped_timestamp H2%grouped_timestamp.
  unfold event_key. by rewrite H1, H2.
Qed.

(** C10.  A well-formed event whose date is not among the days of the grid
    changes nothing: [gencal] gives the same result, grid or exception, with
    and without it, and its dictionary is in no cell of the grid. *)
Theorem event_outside_grid_ignored (date : pyval) (d k : Datetime.date)
    (items1 items2 : list (gmap string pyval)) (e : gmap string pyval) :
  as_date date = Some d →
  well_formed_event e →
  event_key e = Some k →
  (∀ days, get_iterable_days (year d) (month d) = Ok days → k ∉ days) →
  gencal date (items1 ++ e :: items2) = gencal date (items1 ++ items2)
  ∧ ∀ out week c ce,
      gencal date (items1 ++ e :: items2) = Ok out →
      week ∈ month_cal out → c ∈ week → grouped e = Some ce →
      ce ∉ event c.
Proof.
  intros Hd Hwf Hk Hout. split.
  - destruct (group_event_ok e Hwf) as (k' & ce & Hk' & _ & Hg).
    assert (k' = k) as -> by congruence.
    pose proof (get_events_by_day_loop_skip k ce e items2 Hg items1 ∅)
      as Hsame.
    unfold gencal. rewrite !(getattr_as_date _ _ _ Hd). simpl.
    unfold get_events_by_day.
    destruct (get_events_by_day_loop ∅ (items1 ++ e :: items2)) as [a|x],
      (get_events_by_day_loop ∅ (items1 ++ items2)) as [b|y];
      simpl in Hsame; try done; [|by subst]. simpl.
    destruct (get_iterable_days (year d) (month d)) as [days|] eqn:Hdays;
      [|done]. simpl.
    rewrite (gencal_step_ext a b (month d) days); [done|].
    intros dd Hdd. apply Hsame. intros ->. by apply (Hout days).
  - intros out week c ce Hok Hweek Hc Hce Hin.
    destruct (gencal_cell_events _ _ _ Hok week c Hweek Hc) as [Hev _].
    rewrite Hev in Hin.
    apply list_elem_of_omap in Hin as (e' & _ & He').
    case_decide as Hkey; [|done].
    rewrite (grouped_event_key e' e ce He' Hce), Hk in Hkey.
    injection Hkey as ->.
    apply gencal_inv in Hok as (d' & ebd & Hd' & (Hv & _ & Hne) & _ & ->).
    assert (d' = d) as -> by congruence.
    pose proof Hv as [_ Hm].
    apply (Hout (grid_days (year d) (month d)));
      [by apply get_iterable_days_ok|].
    assert (c ∈ cells (gencal_context date d ebd)) as Hcell.
    { apply elem_of_concat. by exists week. }
    rewrite cells_gencal_context in Hcell by done.
    by apply list_elem_of_fmap in Hcell as (dd & -> & Hdd).
Qed.

Lemma event_outside_grid_ignored_witness :
  gencal (PyDate (mkdate 2008 1 1)) ([concert] ++ barbecue :: [])
  = gencal (PyDate (mkdate 2008 1 1)) ([concert] ++ [])
  ∧ ∀ out week c ce,
      gencal (PyDate (mkdate 2008 1 1)) ([concert] ++ barbecue :: []) = Ok out →
      week ∈ month_cal out → c ∈ week → grouped barbecue = Some ce →
      ce ∉ event c.
Proof.
  apply (event_outside_grid_ignored (PyDate (mkdate 2008 1 1))
           (mkdate 2008 1 1) (mkdate 2008 3 15) [concert] [] barbecue).
  - reflexivity.
  - split; [exists (mkdate 2008 3 15); split; [reflexivity|closed_arith]|].
    eexists. reflexivity.
  - reflexivity.
  - intros days Hdays. vm_compute in Hdays. injection Hdays as <-.
    intros Hin. apply list_elem_of_In in Hin. simpl in Hin.
    repeat (destruct Hin as [Hin|Hin]; [discriminate Hin|]). exact Hin.
Defined.

(** ** Further properties of the code *)

(** ** When the helpers and [gencal] return, and what they raise *)

(** A year beyond 9999 that is a C [int], and one that is not. *)
Example year_out_of_range :
  get_iterable_days 10000 5 = Err ValueError
  ∧ get_iterable_days (2 ^ 31) 5 = Err OverflowError
  ∧ get_prev_next_months 10000 5 = Err ValueError
  ∧ get_prev_next_months (2 ^ 31) 5 = Err OverflowError
  ∧ get_prev_next_months (2 ^ 31) 1 = Err ValueError.
Proof. repeat split; reflexivity. Qed.

Lemma c_int_month m : 1 ≤ m ≤ 12 → c_int m = true.
Proof. intros Hm. apply c_int_spec. unfold INT_MIN, INT_MAX. lia. Qed.

Lemma get_iterable_days_year_error y m :
  1 ≤ m ≤ 12 → ¬ (MINYEAR ≤ y ≤ MAXYEAR) →
  get_iterable_days y m
  = Err (if c_int y then ValueError else OverflowError).
Proof.
  intros Hm Hy.
  unfold get_iterable_days, get_iterable_days_extent, Calendar.monthrange,
    Calendar.weekday, new.
  destruct ((1 <=? m) && (m <=? 12)) eqn:Hb; [|lia]. cbn [negb].
  rewrite (c_int_month m Hm). change (c_int 1) with true.
  destruct (c_int y); [|done]. cbn [andb negb].
  destruct ((MINYEAR <=? y) && (y <=? MAXYEAR)) eqn:Hyb; [|done].
  exfalso. apply Hy. lia.
Qed.

Lemma days_before_year_above (n : nat) :
  3652059 + 365 * Z.of_nat n ≤ _days_before_year (10000 + Z.of_nat n).
Proof.
  induction n as [|n IH]; [by vm_compute|].
  replace (10000 + Z.of_nat (S n)) with (10000 + Z.of_nat n + 1) by lia.
  rewrite days_before_year_next.
  destruct (_is_leap (10000 + Z.of_nat n)); lia.
Qed.

Lemma days_before_year_below (n : nat) :
  _days_before_year (0 - Z.of_nat n) ≤ - 366 - 365 * Z.of_nat n.
Proof.
  induction n as [|n IH]; [by vm_compute|].
  pose proof (days_before_year_next (0 - Z.of_nat (S n))) as Hn.
  replace (0 - Z.of_nat (S n) + 1) with (0 - Z.of_nat n) in Hn by lia.
  destruct (_is_leap (0 - Z.of_nat (S n))); lia.
Qed.

(** A date of the calendar whose ordinal is in the range of [datetime.date]
    has its year in the range too. *)
Lemma valid_date_of_ordinal d :
  wf_date d → 1 ≤ toordinal d ≤ _MAXORDINAL → valid_date d.
Proof.
  intros Hwf Hrange. split; [|done]. destruct Hwf as [Hdm Hdd].
  unfold toordinal, _ymd2ord in Hrange.
  pose proof (dbm_leap_range (_is_leap (year d)) (month d) Hdm) as [Hb0 Hb1].
  rewrite days_before_month_leap in Hrange.
  rewrite days_in_month_leap in Hdd.
  unfold MINYEAR, MAXYEAR, _MAXORDINAL in *.
  assert (1 ≤ dbm_leap (_is_leap (year d)) (month d) + Datetime.day d ≤ 366)
    as Hdoy by (destruct (_is_leap (year d)); lia).
  destruct (decide (year d ≤ 0)) as [Hlow|Hlow].
  { pose proof (days_before_year_below (Z.to_nat (0 - year d))) as Hb.
    replace (0 - Z.of_nat (Z.to_nat (0 - year d))) with (year d) in Hb by lia.
    lia. }
  destruct (decide (10000 ≤ year d)) as [Hhigh|Hhigh]; [|lia].
  pose proof (days_before_year_above (Z.to_nat (year d - 10000))) as Hb.
  replace (10000 + Z.of_nat (Z.to_nat (year d - 10000))) with (year d) in Hb
    by lia.
  lia.
Qed.

(** X1.  [get_iterable_days] runs to its end exactly for the months of
    [datetime.date] other than December 9999.  It raises
    [calendar.IllegalMonthError] when the month is not in 1..12, whatever
    the year.  When the month is in 1..12 and the year is not in 1..9999, it
    raises [ValueError] for a year that is a C [int] and [OverflowError] for
    a year that is not.  It raises [OverflowError] for December 9999.  When
    it runs to its end it yields between 28 and 42 days, each a date
    [datetime.date] accepts. *)
Theorem get_iterable_days_returns (y m : Z) :
  ((∃ days, get_iterable_days y m = Ok days)
   ↔ valid_year_month y m ∧ (y, m) ≠ (9999, 12))
  ∧ (¬ (1 ≤ m ≤ 12) → get_iterable_days y m = Err IllegalMonthError)
  ∧ (1 ≤ m ≤ 12 → ¬ (MINYEAR ≤ y ≤ MAXYEAR) → INT_MIN ≤ y ≤ INT_MAX →
     get_iterable_days y m = Err ValueError)
  ∧ (1 ≤ m ≤ 12 → ¬ (INT_MIN ≤ y ≤ INT_MAX) →
     get_iterable_days y m = Err OverflowError)
  ∧ ((y, m) = (9999, 12) → get_iterable_days y m = Err OverflowError)
  ∧ ∀ days, get_iterable_days y m = Ok days →
      (28 ≤ length days ≤ 42)%nat ∧ Forall valid_date days.
Proof.
  split; [split|].
  - intros [days (? & ? & _)%get_iterable_days_inv]. done.
  - intros [Hv Hne]. eexists. by apply get_iterable_days_ok.
  - split; [apply get_iterable_days_illegal_month|].
    split.
    { intros Hm Hy Hc. rewrite get_iterable_days_year_error by done.
      by rewrite (proj2 (c_int_spec y) Hc). }
    split.
    { intros Hm Hc. rewrite get_iterable_days_year_error.
      - destruct (c_int y) eqn:Hcy; [|done].
        by apply c_int_spec in Hcy.
      - done.
      - intros Hy. apply Hc. unfold INT_MIN, INT_MAX, MINYEAR, MAXYEAR in *.
        lia. }
    split; [intros [= -> ->]; apply get_iterable_days_9999_12|].
    intros days (Hv & Hne & ->)%get_iterable_days_inv.
    pose proof Hv as [Hy Hm].
    pose proof (total_days_range y m Hm) as Htot.
    pose proof (head_days_range y m) as Hhd.
    pose proof (tail_days_range y m) as Htd.
    pose proof (first_ordinal_bounds y m Hv) as (Ho1 & Ho2 & Ho3 & Ho4).
    specialize (Ho4 Hne).
    split; [rewrite length_grid_days; lia|].
    apply Forall_forall.
    intros d [i [Hi ->]%lookup_grid_days_inv]%list_elem_of_lookup.
    unfold total_days_in_calendar in Hi.
    assert (-28 ≤ Z.of_nat i - head_days y m < _days_in_month y m + 28)
      as Hk by lia.
    pose proof (day_at_wf y m _ Hm Hk) as Hwf.
    apply valid_date_of_ordinal; [done|].
    rewrite toordinal_day_at by done. unfold _MAXORDINAL in *.
    destruct (decide ((y, m) = (1, 1))) as [[= -> ->]|Hne1].
    + rewrite head_days_1_1 in *. lia.
    + specialize (Ho2 Hne1). lia.
Qed.


Lemma new_first_iff y m :
  (∃ d, new y m 1 = Ok d) ↔ valid_year_month y m.
Proof.
  split.
  - intros [d [-> [Hy [Hm _]]]%new_inv]. done.
  - intros Hv. exists (mkdate y m 1). apply new_ok; [done|].
    destruct Hv as [_ Hm]. pose proof (days_in_month_bounds y m Hm). lia.
Qed.

Lemma get_prev_next_months_unfold y m :
  get_prev_next_months y m
  = (prev ← new (prev_month_of y m).1 (prev_month_of y m).2 1;
     next ← new (next_month_of y m).1 (next_month_of y m).2 1;
     Ok (prev, next)).
Proof.
  unfold get_prev_next_months, prev_month_of, next_month_of.
  replace (m - 1 =? 0) with (m =? 1) by (repeat case Z.eqb_spec; lia).
  replace (m + 1 =? 13) with (m =? 12) by (repeat case Z.eqb_spec; lia).
  destruct (Z.eqb_spec m 1) as [->|?]; [reflexivity|].
  destruct (Z.eqb_spec m 12); reflexivity.
Qed.

Lemma get_prev_next_months_error y m x :
  get_prev_next_months y m = Err x → x = ValueError ∨ x = OverflowError.
Proof.
  rewrite get_prev_next_months_unfold.
  destruct (new (prev_month_of y m).1 _ 1) eqn:H1; simpl.
  - destruct (new (next_month_of y m).1 _ 1) eqn:H2; simpl; [done|].
    intros [= <-]. by apply new_error in H2.
  - intros [= <-]. by apply new_error in H1.
Qed.

Lemma get_prev_next_months_inv y m r :
  get_prev_next_months y m = Ok r → supported y m.
Proof.
  rewrite get_prev_next_months_unfold.
  destruct (new (prev_month_of y m).1 _ 1) as [p|] eqn:H1; simpl; [|done].
  destruct (new (next_month_of y m).1 _ 1) as [n|] eqn:H2; simpl; [|done].
  intros _.
  apply new_inv in H1 as [-> [Hy1 [Hmm1 _]]].
  apply new_inv in H2 as [-> [Hy2 [Hmm2 _]]].
  cbn [year month] in *. revert Hy1 Hmm1 Hy2 Hmm2.
  unfold supported, valid_year_month, prev_month_of, next_month_of,
    MINYEAR, MAXYEAR.
  repeat case Z.eqb_spec; simpl; intros;
    (split; [lia|]); split; intros [= ? ?]; lia.
Qed.



(** X5.  Navigation is consistent: when [get_prev_next_months] returns
    [(prev, next)] for a month, then whatever it returns for the month of
    [prev] has that month as its next anchor, and whatever it returns for
    the month of [next] has it as its previous anchor. *)
Theorem prev_next_round_trip (y m : Z) (prev next : Datetime.date) :
  get_prev_next_months y m = Ok (prev, next) →
  (∀ r, get_prev_next_months (year prev) (month prev) = Ok r →
        r.2 = mkdate y m 1)
  ∧ (∀ r, get_prev_next_months (year next) (month next) = Ok r →
          r.1 = mkdate y m 1).
Proof.
  intros Hok. pose proof (get_prev_next_months_inv _ _ _ Hok) as Hs.
  rewrite get_prev_next_months_ok in Hok by done.
  injection Hok as <- <-.
  destruct Hs as ([_ Hm] & _).
  split; intros r Hr; pose proof (get_prev_next_months_inv _ _ _ Hr) as Hs';
    rewrite get_prev_next_months_ok in Hr by done; injection Hr as <-;
    simpl; unfold anchor, prev_month_of, next_month_of; simpl;
    repeat case Z.eqb_spec; simpl; intros; try lia; f_equal; lia.
Qed.

Lemma prev_next_round_trip_witness :
  (∀ r, get_prev_next_months (year (mkdate 2007 12 1))
          (month (mkdate 2007 12 1)) = Ok r →
        r.2 = mkdate 2008 1 1)
  ∧ (∀ r, get_prev_next_months (year (mkdate 2008 2 1))
            (month (mkdate 2008 2 1)) = Ok r →
          r.1 = mkdate 2008 1 1).
Proof.
  apply (prev_next_round_trip 2008 1 (mkdate 2007 12 1) (mkdate 2008 2 1)).
  reflexivity.
Defined.

(** X7.  [gencal] returns a dictionary exactly when its [date] argument has
    the attributes of a date, the month is one of [datetime.date] other than
    January of year 1 and December 9999, and [get_events_by_day] accepts
    every event. *)
Theorem gencal_returns_iff (date : pyval)
    (cal_items : list (gmap string pyval)) :
  (∃ out, gencal date cal_items = Ok out)
  ↔ (∃ d, as_date date = Some d ∧ supported (year d) (month d))
    ∧ Forall well_formed_event cal_items.
Proof.
  split.
  - intros [out (d & ebd & Hd & Hs & Hev & _)%gencal_inv].
    split; [by exists d|]. by apply get_events_by_day_inv in Hev as [? _].
  - intros [(d & Hd & Hs) (ebd & Hev & _)%get_events_by_day_ok].
    eexists. by apply gencal_ok.
Qed.

(** X8.  What [gencal] raises, in the order the source reaches the causes:
    [AttributeError] when [date] has no [year] or [month]; otherwise the
    exception of [get_events_by_day] when an event is malformed, whatever
    the month; otherwise [calendar.IllegalMonthError] for a month outside
    1..12; otherwise, for a year outside 1..9999, [ValueError] when the year
    is a C [int] and [OverflowError] when it is not; [OverflowError] for
    December 9999 and [ValueError] for January of year 1.  It never raises
    [AssertionError]. *)
Theorem gencal_exceptions (date : pyval)
    (cal_items : list (gmap string pyval)) :
  (as_date date = None → gencal date cal_items = Err AttributeError)
  ∧ (∀ d, as_date date = Some d →
      (¬ Forall well_formed_event cal_items →
       ∃ x, get_events_by_day cal_items = Err x
            ∧ gencal date cal_items = Err x)
      ∧ (Forall well_formed_event cal_items →
         (¬ (1 ≤ month d ≤ 12) →
          gencal date cal_items = Err IllegalMonthError)
         ∧ (1 ≤ month d ≤ 12 → ¬ (MINYEAR ≤ year d ≤ MAXYEAR) →
            INT_MIN ≤ year d ≤ INT_MAX →
            gencal date cal_items = Err ValueError)
         ∧ (1 ≤ month d ≤ 12 → ¬ (INT_MIN ≤ year d ≤ INT_MAX) →
            gencal date cal_items = Err OverflowError)
         ∧ ((year d, month d) = (9999, 12) →
            gencal date cal_items = Err OverflowError)
         ∧ ((year d, month d) = (1, 1) →
            gencal date cal_items = Err ValueError)))
  ∧ gencal date cal_items ≠ Err AssertionError.
Proof.
  assert (∀ d, as_date date = Some d →
    gencal date cal_items
    = (events_by_day ← get_events_by_day cal_items;
       days ← get_iterable_days (year d) (month d);
       let '(week, month_cal) :=
         fold_left (gencal_step events_by_day (month d)) days ([], []) in
       '(prev_date, next_date) ← get_prev_next_months (year d) (month d);
       Ok (mk_context month_cal Calendar.week_headers date prev_date
             next_date))) as Hunfold.
  { intros d Hd. unfold gencal. by rewrite !(getattr_as_date _ _ _ Hd). }
  split; [|split].
  - intros Hd. unfold gencal, getattr. by rewrite Hd.
  - intros d Hd. rewrite (Hunfold d Hd). split.
    + intros (x & Hev & _)%get_events_by_day_error. exists x.
      by rewrite Hev.
    + intros (ebd & Hev & _)%get_events_by_day_ok. rewrite Hev. simpl.
      split; [intros Hm; by rewrite get_iterable_days_illegal_month|].
      split.
      { intros Hm Hy Hc. rewrite get_iterable_days_year_error by done.
        by rewrite (proj2 (c_int_spec _) Hc). }
      split.
      { intros Hm Hc. rewrite get_iterable_days_year_error.
        - destruct (c_int (year d)) eqn:Hcy; [|done].
          by apply c_int_spec in Hcy.
        - done.
        - intros Hy. apply Hc.
          unfold INT_MIN, INT_MAX, MINYEAR, MAXYEAR in *. lia. }
      split; [intros [= -> ->]; by rewrite get_iterable_days_9999_12|].
      intros [= Hy Hm].
      assert (get_prev_next_months (year d) (month d) = Err ValueError)
        as Hpn by (by rewrite Hy, Hm).
      rewrite get_iterable_days_ok
        by (rewrite Hy, Hm; (closed_arith || congruence)).
      unfold mbind, result_bind.
      destruct (fold_left (gencal_step ebd (month d)) _ _).
      by rewrite Hpn.
  - destruct (as_date date) as [d|] eqn:Hd.
    + rewrite (Hunfold d eq_refl).
      destruct (get_events_by_day cal_items) as [ebd|x] eqn:Hev; simpl.
      * destruct (get_iterable_days _ _) as [days|x] eqn:Hdays; simpl.
        -- destruct (fold_left _ _ _).
           destruct (get_prev_next_months _ _) as [[p n]|x] eqn:Hpn; simpl;
             [done|].
           apply get_prev_next_months_error in Hpn as [->| ->]; done.
        -- intros [= ->]. revert Hdays.
           destruct (decide (valid_year_month (year d) (month d)))
             as [Hv|Hn].
           ++ destruct (decide ((year d, month d) = (9999, 12)))
                as [[= -> ->]|Hne].
              ** by rewrite get_iterable_days_9999_12.
              ** by rewrite get_iterable_days_ok.
           ++ unfold valid_year_month in Hn.
              destruct (decide (1 ≤ month d ≤ 12)) as [Hm|Hm].
              ** rewrite get_iterable_days_year_error; [|done|].
                 { by destruct (c_int (year d)). }
                 intros ?. by apply Hn.
              ** by rewrite get_iterable_days_illegal_month.
      * intros [= ->].
        pose proof (get_events_by_day_loop_spec cal_items ∅) as Hspec.
        unfold get_events_by_day in Hev. rewrite Hev in Hspec.
        destruct Hspec as [[?|[?|[?|?]]] _]; done.
    + unfold gencal, getattr. by rewrite Hd.
Qed.


(** ** The shape of the grid *)

Lemma range_from_app n1 n2 : ∀ start,
  range_from start (n1 + n2)
  = range_from start n1 ++ range_from (start + Z.of_nat n1) n2.
Proof.
  induction n1 as [|n1 IH]; intros start; simpl.
  - f_equal. lia.
  - rewrite IH. do 3 f_equal. lia.
Qed.

Lemma map_range_from_shift {A} (f g : Z → A) (k : Z) len :
  ∀ start start',
  start' = start + k →
  (∀ i, start ≤ i < start + Z.of_nat len → f i = g (i + k)) →
  map f (range_from start len) = map g (range_from start' len).
Proof.
  induction len as [|len IH]; intros start start' -> H; simpl; [done|].
  f_equal; [apply H; lia|].
  apply IH; [lia|]. intros i Hi. apply H. lia.
Qed.

Lemma grid_days_split y m :
  1 ≤ m ≤ 12 →
  grid_days y m = leading_pad y m ++ month_days y m ++ trailing_pad y m.
Proof.
  intros Hm.
  pose proof (days_in_month_bounds y m Hm) as Hdim.
  pose proof (head_days_range y m) as Hhd.
  pose proof (tail_days_range y m) as Htd.
  unfold grid_days, py_range, total_days_in_calendar.
  replace (Z.to_nat (head_days y m + _days_in_month y m + tail_days y m))
    with (Z.to_nat (head_days y m)
          + (Z.to_nat (_days_in_month y m) + Z.to_nat (tail_days y m)))%nat
    by lia.
  rewrite !range_from_app, !map_app.
  unfold leading_pad, month_days, trailing_pad. f_equal; [|f_equal].
  - apply (map_range_from_shift _ _ (- head_days y m)); [lia|].
    intros i _. f_equal; lia.
  - apply (map_range_from_shift _ _ (1 - head_days y m)); [lia|].
    intros i Hi.
    rewrite day_at_in_month by lia. f_equal; lia.
  - apply (map_range_from_shift _ _ (- head_days y m)); [lia|].
    intros i _. f_equal; lia.
Qed.

Lemma month_of_leading_pad y m d :
  1 ≤ m ≤ 12 → d ∈ leading_pad y m → month d ≠ m.
Proof.
  intros Hm (k & -> & Hk%elem_of_range_from)%list_elem_of_fmap.
  unfold day_at, prev_month_of.
  case Z.ltb_spec; intros; [|lia].
  case Z.eqb_spec; simpl; lia.
Qed.

Lemma month_of_trailing_pad y m d :
  1 ≤ m ≤ 12 → d ∈ trailing_pad y m → month d ≠ m.
Proof.
  intros Hm (k & -> & Hk%elem_of_range_from)%list_elem_of_fmap.
  pose proof (days_in_month_bounds y m Hm) as Hdim.
  unfold day_at, next_month_of.
  repeat (case Z.ltb_spec; intros; try lia).
  case Z.eqb_spec; simpl; lia.
Qed.

Lemma month_of_month_days y m d : d ∈ month_days y m → month d = m.
Proof. by intros (k & -> & _)%list_elem_of_fmap. Qed.

Lemma in_month_all (b : bool) ebd m (l : list Datetime.date) :
  (∀ d, d ∈ l → (month d =? m) = b) →
  map in_month (map (mk_cell ebd m) l) = replicate (length l) b.
Proof.
  induction l as [|d l IH]; intros H; [done|].
  simpl. rewrite H by left. f_equal. apply IH. intros; apply H. by right.
Qed.

(** X9.  The cells of a grid returned by [gencal], row after row, are a
    leading pad of [first_day_of_month.weekday()] cells, then one cell for
    each day of the month from the 1st to the last in order, then a trailing
    pad of [6 - last_day_of_month.weekday()] cells; [in_month] is false on
    the two pads and true in between. *)
Theorem grid_layout (date : pyval) (d : Datetime.date)
    (cal_items : list (gmap string pyval)) (out : context) :
  as_date date = Some d →
  gencal date cal_items = Ok out →
  let y := year d in
  let m := month d in
  ∃ leading trailing,
    map Gencal.day (cells out)
    = leading
      ++ map (mkdate y m) (range_from 1 (Z.to_nat (_days_in_month y m)))
      ++ trailing
    ∧ Z.of_nat (length leading) = Datetime.weekday (mkdate y m 1)
    ∧ Z.of_nat (length trailing)
      = 6 - Datetime.weekday (mkdate y m (_days_in_month y m))
    ∧ map in_month (cells out)
      = replicate (length leading) false
        ++ replicate (Z.to_nat (_days_in_month y m)) true
        ++ replicate (length trailing) false.
Proof.
  intros Hd Hout y m.
  apply gencal_inv in Hout as (d' & ebd & Hd' & Hs & _ & ->).
  assert (d' = d) as -> by congruence.
  destruct Hs as ([_ Hm] & _). fold y m in Hm.
  pose proof (head_days_range y m) as Hhd.
  pose proof (tail_days_range y m) as Htd.
  exists (leading_pad y m), (trailing_pad y m).
  rewrite cells_gencal_context by done. fold y m.
  rewrite map_day_mk_cell, grid_days_split by done.
  split; [done|].
  split; [unfold leading_pad; rewrite length_map, length_range_from;
          fold (head_days y m); lia|].
  split; [unfold trailing_pad; rewrite length_map, length_range_from;
          fold (tail_days y m); lia|].
  rewrite !map_app. f_equal; [|f_equal].
  - apply in_month_all. intros dd Hdd. apply Z.eqb_neq.
    by apply (month_of_leading_pad y m).
  - rewrite (in_month_all true).
    + unfold month_days. by rewrite length_map, length_range_from.
    + intros dd Hdd. apply Z.eqb_eq. by apply (month_of_month_days y m).
  - apply in_month_all. intros dd Hdd. apply Z.eqb_neq.
    by apply (month_of_trailing_pad y m).
Qed.

Lemma grid_layout_witness :
  ∃ out, gencal (PyDate (mkdate 2008 2 14)) [] = Ok out ∧
  let y := 2008 in
  let m := 2 in
  ∃ leading trailing,
    map Gencal.day (cells out)
    = leading
      ++ map (mkdate y m) (range_from 1 (Z.to_nat (_days_in_month y m)))
      ++ trailing
    ∧ Z.of_nat (length leading) = Datetime.weekday (mkdate y m 1)
    ∧ Z.of_nat (length trailing)
      = 6 - Datetime.weekday (mkdate y m (_days_in_month y m))
    ∧ map in_month (cells out)
      = replicate (length leading) false
        ++ replicate (Z.to_nat (_days_in_month y m)) true
        ++ replicate (length trailing) false.
Proof.
  eexists. split; [vm_compute; reflexivity|].
  apply (grid_layout (PyDate (mkdate 2008 2 14)) (mkdate 2008 2 14) []);
    [reflexivity|vm_compute; reflexivity].
Defined.

(** X10.  A grid returned by [gencal] has 4, 5 or 6 rows: the weekday of
    the 1st plus the number of days of the month, rounded up to whole weeks.
    It has 4 rows exactly when the month has 28 days and starts on a Monday,
    and 6 rows exactly when the weekday of the 1st plus the number of days
    exceeds 35. *)
Theorem number_of_weeks (date : pyval) (d : Datetime.date)
    (cal_items : list (gmap string pyval)) (out : context) :
  as_date date = Some d →
  gencal date cal_items = Ok out →
  let y := year d in
  let m := month d in
  let rows := Z.of_nat (length (month_cal out)) in
  4 ≤ rows ≤ 6
  ∧ rows = (Datetime.weekday (mkdate y m 1) + _days_in_month y m + 6) / 7
  ∧ (rows = 4 ↔ _days_in_month y m = 28 ∧ Datetime.weekday (mkdate y m 1) = 0)
  ∧ (rows = 6 ↔ 35 < Datetime.weekday (mkdate y m 1) + _days_in_month y m).
Proof.
  intros Hd Hout y m rows.
  apply gencal_inv in Hout as (d' & ebd & Hd' & Hs & _ & ->).
  assert (d' = d) as -> by congruence.
  destruct Hs as ([_ Hm] & _). fold y m in Hm.
  destruct (month_cal_of_grid ebd y m Hm) as (_ & Hcat & Hrows).
  pose proof (length_concat_rows _ Hrows) as Hlen.
  rewrite Hcat, length_map, length_grid_days in Hlen.
  pose proof (total_days_mod_7 y m) as H7.
  pose proof (total_days_range y m Hm) as Htot.
  pose proof (head_days_range y m) as Hhd.
  pose proof (tail_days_range y m) as Htd.
  pose proof (days_in_month_bounds y m Hm) as Hdim.
  assert (7 * rows = total_days_in_calendar y m) as Hr.
  { subst rows. unfold gencal_context. simpl. fold y m. lia. }
  clearbody rows. unfold total_days_in_calendar in *.
  fold (head_days y m). clear Hlen.
  repeat split; intros; Z.div_mod_to_equations; lia.
Qed.

Lemma number_of_weeks_witness :
  ∃ out, gencal (PyDate (mkdate 2010 2 1)) [] = Ok out ∧
  let y := 2010 in
  let m := 2 in
  let rows := Z.of_nat (length (month_cal out)) in
  4 ≤ rows ≤ 6
  ∧ rows = (Datetime.weekday (mkdate y m 1) + _days_in_month y m + 6) / 7
  ∧ (rows = 4 ↔ _days_in_month y m = 28 ∧ Datetime.weekday (mkdate y m 1) = 0)
  ∧ (rows = 6 ↔ 35 < Datetime.weekday (mkdate y m 1) + _days_in_month y m).
Proof.
  eexists. split; [vm_compute; reflexivity|].
  apply (number_of_weeks (PyDate (mkdate 2010 2 1)) (mkdate 2010 2 1) []);
    [reflexivity|vm_compute; reflexivity].
Defined.


(** ** Consecutive days, consecutive months *)

Lemma grid_ordinal_range y m (i : nat) :
  valid_year_month y m → (y, m) ≠ (9999, 12) →
  Z.of_nat i < total_days_in_calendar y m →
  0 < _ymd2ord y m 1 + (Z.of_nat i - head_days y m) ≤ _MAXORDINAL.
Proof.
  intros Hv Hne Hi. pose proof Hv as [_ Hm].
  pose proof (head_days_range y m) as Hhd.
  pose proof (tail_days_range y m) as Htd.
  pose proof (first_ordinal_bounds y m Hv) as (Ho1 & Ho2 & Ho3 & Ho4).
  specialize (Ho4 Hne). unfold total_days_in_calendar, _MAXORDINAL in *.
  destruct (decide ((y, m) = (1, 1))) as [[= -> ->]|Hne1].
  - rewrite head_days_1_1 in *. lia.
  - specialize (Ho2 Hne1). lia.
Qed.

(** X2.  The days [get_iterable_days] yields are consecutive: each one is
    the day before it plus [timedelta(1)]. *)
Theorem days_are_consecutive (y m : Z) (days : list Datetime.date) :
  get_iterable_days y m = Ok days →
  ∀ (i : nat) d1 d2, days !! i = Some d1 → days !! S i = Some d2 →
    Datetime.add d1 1 = Ok d2 ∧ toordinal d2 = toordinal d1 + 1.
Proof.
  intros (Hv & Hne & ->)%get_iterable_days_inv i d1 d2
    [Hi ->]%lookup_grid_days_inv [HSi ->]%lookup_grid_days_inv.
  pose proof Hv as [_ Hm].
  pose proof (head_days_range y m) as Hhd.
  pose proof (tail_days_range y m) as Htd.
  pose proof (grid_ordinal_range y m (S i) Hv Hne HSi) as Ho.
  unfold total_days_in_calendar in *.
  replace (Z.of_nat (S i) - head_days y m)
    with (Z.of_nat i - head_days y m + 1) in * by lia.
  split.
  - apply add_day_at; [done|lia|]. rewrite <- Z.add_assoc. exact Ho.
  - rewrite !toordinal_day_at by done. lia.
Qed.

Lemma days_are_consecutive_witness :
  ∃ days, get_iterable_days 2008 2 = Ok days
  ∧ ∀ (i : nat) d1 d2, days !! i = Some d1 → days !! S i = Some d2 →
      Datetime.add d1 1 = Ok d2 ∧ toordinal d2 = toordinal d1 + 1.
Proof.
  eexists. split; [vm_compute; reflexivity|].
  apply (days_are_consecutive 2008 2). vm_compute. reflexivity.
Defined.

(** X3.  The grids of two consecutive months fit together: when the month
    does not end on a Sunday, the last seven days enumerated for it are the
    first seven days enumerated for the next month; when it ends on a
    Sunday, the first day enumerated for the next month is the day after the
    last day enumerated for it. *)
Theorem adjacent_grids_share_week (y m : Z)
    (days days' : list Datetime.date) :
  get_iterable_days y m = Ok days →
  get_iterable_days (next_month_of y m).1 (next_month_of y m).2 = Ok days' →
  (Datetime.weekday (mkdate y m (_days_in_month y m)) ≠ 6 →
   drop (length days - 7) days = take 7 days')
  ∧ (Datetime.weekday (mkdate y m (_days_in_month y m)) = 6 →
     ∀ final first, last days = Some final → head days' = Some first →
       Datetime.add final 1 = Ok first).
Proof.
  intros (Hv & Hne & ->)%get_iterable_days_inv
    (Hv' & Hne' & ->)%get_iterable_days_inv.
  pose proof Hv as [_ Hm]. pose proof Hv' as [_ Hm'].
  pose proof (ymd2ord_next_month y m Hm) as Hnext.
  destruct (next_month_of y m) as [ny nm]. simpl in *.
  pose proof (days_in_month_bounds y m Hm) as Hdim.
  pose proof (days_in_month_bounds ny nm Hm') as Hdim'.
  pose proof (head_days_range y m) as Hhd.
  pose proof (tail_days_range y m) as Htd.
  pose proof (head_days_range ny nm) as Hhd'.
  pose proof (tail_days_range ny nm) as Htd'.
  pose proof (total_days_range y m Hm) as Htot.
  pose proof (total_days_range ny nm Hm') as Htot'.
  assert (head_days ny nm = (7 - tail_days y m) mod 7) as Hlink.
  { unfold head_days, tail_days, weekday, toordinal. simpl.
    rewrite Hnext. change (_ymd2ord y m (_days_in_month y m))
      with (_days_before_year y + _days_before_month y m + _days_in_month y m).
    unfold _ymd2ord. Z.div_mod_to_equations; lia. }
  fold (tail_days y m).
  replace (Datetime.weekday (mkdate y m (_days_in_month y m)))
    with (6 - tail_days y m) by (unfold tail_days; lia).
  split.
  - intros Hsun. apply list_eq. intros i.
    rewrite lookup_drop, lookup_take, length_grid_days.
    destruct (decide (i < 7)%nat) as [Hi|Hi].
    + rewrite !lookup_grid_days by lia. f_equal.
      apply wf_date_eq.
      * apply day_at_wf; [done|]. unfold total_days_in_calendar in *. lia.
      * apply day_at_wf; [done|]. lia.
      * rewrite !toordinal_day_at by done. rewrite Hnext.
        unfold total_days_in_calendar in *.
        assert (head_days ny nm = 7 - tail_days y m) as ->
          by (rewrite Hlink; Z.div_mod_to_equations; lia).
        lia.
    + rewrite lookup_ge_None_2; [done|]. rewrite length_grid_days. lia.
  - intros Hsun final first.
    rewrite last_lookup, head_lookup, length_grid_days.
    rewrite !lookup_grid_days by lia. intros [= <-] [= <-].
    assert (tail_days y m = 0) as Htd0 by lia.
    assert (head_days ny nm = 0) as Hhd0 by (rewrite Hlink, Htd0; done).
    rewrite Hhd0. simpl. unfold total_days_in_calendar. rewrite Htd0.
    replace (Z.of_nat (Nat.pred (Z.to_nat (head_days y m + _days_in_month y m + 0)))
             - head_days y m) with (_days_in_month y m - 1) by lia.
    rewrite add_day_at; [| done | lia |].
    + f_equal. apply wf_date_eq.
      * apply day_at_wf; [done|lia].
      * apply day_at_wf; [done|lia].
      * rewrite !toordinal_day_at by done. lia.
    + pose proof (grid_ordinal_range ny nm 0 Hv' Hne' ltac:(lia)) as Ho.
      rewrite Hhd0 in Ho. lia.
Qed.

Lemma adjacent_grids_share_week_witness :
  ∃ days days',
    get_iterable_days 2008 1 = Ok days
    ∧ get_iterable_days 2008 2 = Ok days'
    ∧ (Datetime.weekday (mkdate 2008 1 (_days_in_month 2008 1)) ≠ 6 →
       drop (length days - 7) days = take 7 days')
    ∧ (Datetime.weekday (mkdate 2008 1 (_days_in_month 2008 1)) = 6 →
       ∀ final first, last days = Some final → head days' = Some first →
         Datetime.add final 1 = Ok first).
Proof.
  eexists _, _. split; [vm_compute; reflexivity|].
  split; [vm_compute; reflexivity|].
  apply (adjacent_grids_share_week 2008 1); vm_compute; reflexivity.
Defined.


(** ** What becomes of the events *)

Lemma grid_days_NoDup y m : 1 ≤ m ≤ 12 → NoDup (grid_days y m).
Proof.
  intros Hm. apply NoDup_alt. intros i j d Hi Hj.
  destruct (grid_days_cover y m Hm) as (_ & _ & Hincr & _).
  destruct (Nat.lt_total i j) as [Hlt|[Heq|Hlt]]; [|done|].
  - by destruct (date_lt_irrefl _ (Hincr _ _ _ _ Hi Hj Hlt)).
  - by destruct (date_lt_irrefl _ (Hincr _ _ _ _ Hj Hi Hlt)).
Qed.

Lemma events_for_cons_app d e items :
  events_for d (e :: items)
  = (if decide (event_key e = Some d) then option_list (grouped e) else [])
    ++ events_for d items.
Proof.
  rewrite events_for_cons. case_decide; [|done]. by destruct (grouped e).
Qed.

Lemma concat_map_app_perm {A B} (f g : A → list B) (l : list A) :
  concat (map (λ x, f x ++ g x) l) ≡ₚ concat (map f l) ++ concat (map g l).
Proof.
  induction l as [|x l IH]; [done|]. simpl. rewrite IH.
  rewrite <- !app_assoc. apply Permutation_app_head.
  rewrite !app_assoc. apply Permutation_app_tail, Permutation_app_comm.
Qed.

Lemma dated_in_nil e : ¬ dated_in [] e.
Proof.
  unfold dated_in. destruct (event_key e); [apply not_elem_of_nil|tauto].
Qed.

Lemma dated_in_cons d days e :
  dated_in (d :: days) e ↔ event_key e = Some d ∨ dated_in days e.
Proof.
  unfold dated_in. destruct (event_key e) as [k|].
  - rewrite elem_of_cons. split; (intros [H|H]; [left|right]); congruence.
  - split; [done|]. by intros [?|?].
Qed.

Lemma dated_in_key days e d :
  event_key e = Some d → dated_in days e ↔ d ∈ days.
Proof. unfold dated_in. by intros ->. Qed.

Lemma concat_map_select (e : gmap string pyval) (l : list cal_event)
    (days : list Datetime.date) :
  NoDup days →
  concat (map (λ d, if decide (event_key e = Some d) then l else []) days)
  = if decide (dated_in days e) then l else [].
Proof.
  induction 1 as [|d days Hd Hnd IH]; simpl.
  - rewrite decide_False; [done|apply dated_in_nil].
  - rewrite IH. destruct (decide (event_key e = Some d)) as [Hk|Hk].
    + rewrite (decide_False (P := dated_in days e))
        by (by rewrite (dated_in_key days e d Hk)).
      rewrite decide_True by (apply dated_in_cons; by left).
      by rewrite app_nil_r.
    + simpl. destruct (decide (dated_in days e)) as [Hin|Hin].
      * by rewrite decide_True by (apply dated_in_cons; by right).
      * rewrite decide_False; [done|]. rewrite dated_in_cons. by intros [?|?].
Qed.

Lemma concat_events_for (days : list Datetime.date)
    (items : list (gmap string pyval)) :
  NoDup days →
  concat (map (λ d, events_for d items) days)
  ≡ₚ omap grouped (filter (dated_in days) items).
Proof.
  intros Hnd. induction items as [|e items IH].
  - simpl. induction days; [done|]. simpl. inversion Hnd. auto.
  - rewrite (map_ext _ _ (λ d, events_for_cons_app d e items)).
    rewrite concat_map_app_perm, concat_map_select, IH by done.
    rewrite filter_cons. case_decide; [|done].
    simpl. by destruct (grouped e).
Qed.

Lemma length_omap_grouped (items : list (gmap string pyval)) :
  Forall well_formed_event items → length (omap grouped items) = length items.
Proof.
  induction 1 as [|e items [_ [ce Hce]] _ IH]; [done|].
  simpl. rewrite Hce. simpl. f_equal. exact IH.
Qed.

(** X11.  No event is invented, lost or shown twice: in a grid returned by
    [gencal], the events of all the cells together are, up to order, the
    dictionaries of the input events whose date is the date of a cell, one
    for each such event. *)
Theorem shown_events (date : pyval) (cal_items : list (gmap string pyval))
    (out : context) :
  gencal date cal_items = Ok out →
  let days := map Gencal.day (cells out) in
  concat (map event (cells out))
  ≡ₚ omap grouped (filter (dated_in days) cal_items)
  ∧ length (concat (map event (cells out)))
    = length (filter (dated_in days) cal_items).
Proof.
  intros Hout days.
  apply gencal_inv in Hout as (d & ebd & Hd & Hs & Hev & ->).
  destruct Hs as ([_ Hm] & _).
  apply get_events_by_day_inv in Hev as [Hwf Hev].
  subst days. rewrite cells_gencal_context, map_day_mk_cell by done.
  rewrite map_map. simpl.
  rewrite (map_ext _ _ Hev).
  pose proof (concat_events_for _ cal_items
                (grid_days_NoDup (year d) (month d) Hm)) as Hperm.
  split; [done|]. rewrite Hperm. apply length_omap_grouped.
  rewrite Forall_forall in Hwf. apply Forall_forall.
  intros e [_ He]%list_elem_of_filter. by apply Hwf.
Qed.

Lemma shown_events_witness :
  ∃ out, gencal (PyDate (mkdate 2008 1 1)) [concert; barbecue] = Ok out ∧
  let days := map Gencal.day (cells out) in
  concat (map event (cells out))
  ≡ₚ omap grouped (filter (dated_in days) [concert; barbecue])
  ∧ length (concat (map event (cells out)))
    = length (filter (dated_in days) [concert; barbecue]).
Proof.
  eexists. split; [vm_compute; reflexivity|].
  apply (shown_events (PyDate (mkdate 2008 1 1)) [concert; barbecue]).
  vm_compute. reflexivity.
Defined.

Lemma get_events_by_day_loop_nonempty items : ∀ acc ebd,
  get_events_by_day_loop acc items = Ok ebd →
  (∀ d l, acc !! d = Some l → l ≠ []) →
  ∀ d l, ebd !! d = Some l → l ≠ [].
Proof.
  induction items as [|e items IH]; intros acc ebd.
  - simpl. by intros [= <-].
  - rewrite get_events_by_day_loop_cons.
    destruct (group_event e) as [[k ce]|]; [|done].
    intros Hloop Hacc. eapply IH; [exact Hloop|].
    intros d l. rewrite lookup_insert. case_decide.
    + intros [= <-]. by destruct (events_on acc k).
    + apply Hacc.
Qed.

(** X6.  The dictionary [get_events_by_day] returns has a key for exactly
    the dates of the input events, and under each key the events of that
    date in input order: no date maps to an empty list. *)
Theorem events_by_day_lookup (cal_items : list (gmap string pyval))
    (events_by_day : gmap Datetime.date (list cal_event)) :
  get_events_by_day cal_items = Ok events_by_day →
  ∀ d, events_by_day !! d
       = (if decide (events_for d cal_items = []) then None
          else Some (events_for d cal_items)).
Proof.
  intros Hev d.
  pose proof (get_events_by_day_loop_nonempty cal_items ∅ events_by_day Hev)
    as Hne.
  apply get_events_by_day_inv in Hev as [_ Hev].
  specialize (Hev d). unfold events_on in Hev.
  destruct (events_by_day !! d) as [l|] eqn:Hl; simpl in Hev.
  - subst l. rewrite decide_False; [done|].
    eapply Hne; [|exact Hl]. intros ??. by rewrite lookup_empty.
  - by rewrite decide_True.
Qed.

Lemma events_by_day_lookup_witness :
  ∃ events_by_day, get_events_by_day [concert; barbecue] = Ok events_by_day
  ∧ ∀ d, events_by_day !! d
       = (if decide (events_for d [concert; barbecue] = []) then None
          else Some (events_for d [concert; barbecue])).
Proof.
  exists (<[mkdate 2008 3 15 :=
             [mk_cal_event (PyStr "BBQ") PyNone (PyStr "restaurant")
                (PyDate (mkdate 2008 3 15))]]>
          (<[mkdate 2008 1 30 :=
             [mk_cal_event (PyStr "Concert") (PyStr "/foo/2")
                (PyStr "concert") (PyDateTime (mkdate 2008 1 30) 14 0 0 0)]]>
           ∅)).
  split; [reflexivity|].
  apply (events_by_day_lookup [concert; barbecue]). reflexivity.
Defined.


(** ** The parser of the tag *)

Lemma py_index_nat {A} (l : list A) (i : nat) :
  py_index l (Z.of_nat i)
  = match l !! i with Some x => TOk x | None => TErr IndexError end.
Proof.
  unfold py_index. case Z.ltb_spec; intros; [lia|].
  rewrite Nat2Z.id.
  destruct (l !! i) as [x|] eqn:Hl.
  - apply lookup_lt_Some in Hl.
    case Z.leb_spec; intros; [|lia]. case Z.ltb_spec; intros; [done|lia].
  - apply lookup_ge_None in Hl.
    case Z.leb_spec; intros; [|lia]. case Z.ltb_spec; intros; [lia|done].
Qed.

Lemma keyword_mismatch_nat (bits : list string) (i : nat) :
  (i < 4)%nat → (2 * i + 1 < length bits)%nat →
  keyword_mismatch bits (Z.of_nat i) = TOk (mismatch_at bits i).
Proof.
  intros Hi Hb. unfold keyword_mismatch, mismatch_at.
  replace (2 * Z.of_nat i + 1) with (Z.of_nat (2 * i + 1)) by lia.
  rewrite !py_index_nat.
  destruct (keywords !! i) as [k|] eqn:Hk;
    [|apply lookup_ge_None in Hk; simpl in Hk; lia].
  destruct (bits !! (2 * i + 1)%nat) as [b|] eqn:Hbit;
    [|apply lookup_ge_None in Hbit; lia].
  rewrite (nth_lookup_Some _ _ EmptyString _ Hk).
  rewrite (nth_lookup_Some _ _ EmptyString _ Hbit). reflexivity.
Qed.

Lemma py_any_range (f : Z → tresult bool) (g : nat → bool) len : ∀ start,
  (∀ i, (start ≤ i < start + len)%nat → f (Z.of_nat i) = TOk (g i)) →
  py_any f (range_from (Z.of_nat start) len)
  = TOk (existsb g (seq start len)).
Proof.
  induction len as [|len IH]; intros start H; [done|].
  simpl. rewrite H by lia. destruct (g start); [done|].
  replace (Z.of_nat start + 1) with (Z.of_nat (S start)) by lia.
  apply IH. intros i Hi. apply H. lia.
Qed.

Lemma existsb_seq_false (g : nat → bool) start len :
  existsb g (seq start len) = false
  ↔ ∀ i, (start ≤ i < start + len)%nat → g i = false.
Proof.
  revert start. induction len as [|len IH]; intros start; simpl.
  - split; [intros _ i; lia|done].
  - rewrite orb_false_iff, IH. split.
    + intros [H0 H] i Hi. destruct (decide (i = start)) as [->|]; [done|].
      apply H. lia.
    + intros H. split; [apply H; lia|]. intros i Hi. apply H. lia.
Qed.

Lemma keywords_checked (bits : list string) :
  let iterations :=
    Z.min (Z.of_nat (length keywords)) (Z.of_nat (length bits) / 2) in
  py_any (keyword_mismatch bits) (py_range iterations)
  = TOk (existsb (mismatch_at bits) (seq 0 (Z.to_nat iterations)))
  ∧ (existsb (mismatch_at bits) (seq 0 (Z.to_nat iterations)) = false
     ↔ ∀ (i : nat) k b,
         keywords !! i = Some k → bits !! (2 * i + 1)%nat = Some b →
         str_lower b = k).
Proof.
  intros iterations.
  assert (∀ i : nat, (i < Z.to_nat iterations)%nat
                     ↔ (i < 4)%nat ∧ (2 * i + 1 < length bits)%nat) as Hit.
  { intros i. subst iterations. change (length keywords) with 4%nat.
    split; [intros H; split|intros [H1 H2]];
      Z.div_mod_to_equations; lia. }
  split.
  - unfold py_range. apply (py_any_range _ _ _ 0%nat).
    intros i Hi. apply keyword_mismatch_nat; apply Hit; lia.
  - rewrite existsb_seq_false. split.
    + intros H i k b Hk Hb.
      assert (i < Z.to_nat iterations)%nat as Hi.
      { apply Hit. apply lookup_lt_Some in Hk, Hb. simpl in Hk. lia. }
      specialize (H i ltac:(lia)). unfold mismatch_at in H.
      rewrite (nth_lookup_Some _ _ EmptyString _ Hk) in H.
      rewrite (nth_lookup_Some _ _ EmptyString _ Hb) in H.
      apply negb_false_iff, String.eqb_eq in H. done.
    + intros H i Hi. assert (i < Z.to_nat iterations)%nat as Hi' by lia.
      apply Hit in Hi' as [Hi4 Hib].
      destruct (lookup_lt_is_Some_2 keywords i) as [k Hk]; [simpl; lia|].
      destruct (lookup_lt_is_Some_2 bits (2 * i + 1)) as [b Hb]; [lia|].
      unfold mismatch_at.
      rewrite (nth_lookup_Some _ _ EmptyString _ Hk).
      rewrite (nth_lookup_Some _ _ EmptyString _ Hb).
      apply negb_false_iff, String.eqb_eq. symmetry. by eapply H.
Qed.

Lemma optional_args_spec (bits : list string) (date_obj template : string) :
  optional_args bits date_obj template
  = TOk (match bits !! 6%nat with
         | Some d => (d, default template (bits !! 8%nat))
         | None => (date_obj, template)
         end).
Proof.
  unfold optional_args.
  change 6 with (Z.of_nat 6). change 8 with (Z.of_nat 8).
  rewrite !py_index_nat.
  destruct (bits !! 6%nat); [|done]. by destruct (bits !! 8%nat).
Qed.

Lemma simple_gencal_args_cases (bits : list string) :
  (accepted bits
   ∧ simple_gencal_args bits
     = TOk (nth 2 bits EmptyString, nth 4 bits EmptyString,
            default "date"%string (bits !! 6%nat),
            default "gencal/gencal.html"%string (bits !! 8%nat)))
  ∨ (¬ accepted bits ∧ simple_gencal_args bits = TErr TemplateSyntaxError).
Proof.
  destruct (keywords_checked bits) as [Hany Hiff].
  unfold simple_gencal_args. rewrite Hany. simpl mbind.
  destruct (existsb _ _) eqn:Hex.
  - right. split; [|done]. intros [_ Hkw]. apply Hiff in Hkw. congruence.
  - pose proof (proj1 Hiff eq_refl) as Hkw.
    destruct (bool_decide_reflect (Z.of_nat (length bits) ∈ [5; 7; 9]))
      as [Hlen|Hlen]; simpl.
    + left. split; [by split|].
      assert (5 ≤ length bits)%nat as Hge.
      { set_unfold. lia. }
      change 2 with (Z.of_nat 2). change 4 with (Z.of_nat 4).
      rewrite !py_index_nat.
      destruct (lookup_lt_is_Some_2 bits 2) as [model Hmodel]; [lia|].
      destruct (lookup_lt_is_Some_2 bits 4) as [field Hfield]; [lia|].
      rewrite Hmodel, Hfield. simpl. rewrite optional_args_spec. simpl.
      rewrite (nth_lookup_Some _ _ EmptyString _ Hmodel).
      rewrite (nth_lookup_Some _ _ EmptyString _ Hfield).
      destruct (bits !! 6%nat) as [d|] eqn:H6; [done|].
      apply lookup_ge_None in H6.
      rewrite (lookup_ge_None_2 bits 8) by lia. done.
    + right. split; [intros [? _]; done|done].
Qed.

(** X12.  [simple_gencal] accepts exactly the tags of 5, 7 or 9 words whose
    2nd, 4th, 6th and 8th words, as far as they exist, are [for], [on], [in]
    and [with] in any case; the first word is not looked at.  The
    constructor is then called with the 3rd and 5th words, with the 7th word
    or ['date'], and with the 9th word or ['gencal/gencal.html'].  Every
    other list of words raises [TemplateSyntaxError], never
    [IndexError]. *)
Theorem simple_gencal_args_spec (bits : list string) :
  (accepted bits →
   simple_gencal_args bits
   = TOk (nth 2 bits EmptyString, nth 4 bits EmptyString,
          default "date"%string (bits !! 6%nat),
          default "gencal/gencal.html"%string (bits !! 8%nat)))
  ∧ (¬ accepted bits → simple_gencal_args bits = TErr TemplateSyntaxError).
Proof.
  destruct (simple_gencal_args_cases bits) as [[Ha ->]|[Hn ->]];
    split; (done || by intros).
Qed.

Lemma simple_gencal_args_spec_witness :
  simple_gencal_args ["simple_gencal"; "For"; "event.Event"; "ON"; "day";
                      "in"; "today"]%string
  = TOk (nth 2 ["simple_gencal"; "For"; "event.Event"; "ON"; "day";
                "in"; "today"]%string EmptyString,
         nth 4 ["simple_gencal"; "For"; "event.Event"; "ON"; "day";
                "in"; "today"]%string EmptyString,
         default "date"%string
           (["simple_gencal"; "For"; "event.Event"; "ON"; "day";
             "in"; "today"]%string !! 6%nat),
         default "gencal/gencal.html"%string
           (["simple_gencal"; "For"; "event.Event"; "ON"; "day";
             "in"; "today"]%string !! 8%nat)).
Proof.
  apply (simple_gencal_args_spec
           ["simple_gencal"; "For"; "event.Event"; "ON"; "day";
            "in"; "today"]%string).
  split; [set_unfold; lia|].
  intros i k b Hk Hb.
  destruct i as [|[|[|[|i]]]]; simpl in Hk, Hb; try discriminate;
    injection Hk as <-; injection Hb as <-; reflexivity.
Defined.


(** ** The constructor of the node *)

Lemma str_split_on_nonempty sep s : str_split_on sep s ≠ [].
Proof.
  destruct s as [|c s]; simpl; [done|].
  destruct (Ascii.eqb c sep); [done|]. by destruct (str_split_on sep s).
Qed.

Lemma length_str_split_on sep s :
  length (str_split_on sep s) = S (str_count sep s).
Proof.
  induction s as [|c s IH]; simpl; [done|].
  destruct (Ascii.eqb c sep); simpl; [by rewrite IH|].
  pose proof (str_split_on_nonempty sep s).
  destruct (str_split_on sep s); [done|]. simpl in *. lia.
Qed.

Lemma str_join_cons sep w ws :
  ws ≠ [] →
  str_join sep (w :: ws) = (w ++ String sep (str_join sep ws))%string.
Proof. by destruct ws. Qed.

(** [sep.join(s.split(sep)) == s] *)
Lemma str_join_split_on sep s : str_join sep (str_split_on sep s) = s.
Proof.
  induction s as [|c s IH]; simpl; [done|].
  pose proof (str_split_on_nonempty sep s) as Hne.
  destruct (Ascii.eqb_spec c sep) as [->|Hc].
  - rewrite str_join_cons by done. simpl. by rewrite IH.
  - destruct (str_split_on sep s) as [|w ws]; [done|].
    destruct ws as [|w' ws]; simpl in *; by rewrite <- IH.
Qed.

Lemma str_split_on_pieces sep s :
  Forall (λ w, str_count sep w = 0%nat) (str_split_on sep s).
Proof.
  induction s as [|c s IH]; simpl; [by repeat constructor|].
  destruct (Ascii.eqb c sep) eqn:Hc; [by constructor|].
  pose proof (str_split_on_nonempty sep s) as Hne.
  destruct (str_split_on sep s) as [|w ws]; [done|].
  inversion IH; subst. constructor; [|done]. simpl. by rewrite Hc.
Qed.

Lemma SimpleGencalNode_spec_cases `{Django}
    (model field date_obj template : string) (var : template_variable) :
  new_variable date_obj = TOk var →
  (str_count dot model ≠ 1%nat
   ∧ SimpleGencalNode model field date_obj template
     = TErr (Python AssertionError))
  ∨ (∃ app_label model_name,
       model = (app_label ++ String dot model_name)%string
       ∧ str_count dot app_label = 0%nat
       ∧ str_count dot model_name = 0%nat
       ∧ SimpleGencalNode model field date_obj template
         = match get_model app_label model_name with
           | Some m => TOk (mk_node field (Unresolved var) template m)
           | None => TErr (Python AssertionError)
           end).
Proof.
  intros Hvar. unfold SimpleGencalNode. rewrite Hvar. simpl.
  pose proof (length_str_split_on dot model) as Hlen.
  pose proof (str_join_split_on dot model) as Hjoin.
  pose proof (str_split_on_pieces dot model) as Hpieces.
  destruct (str_split_on dot model) as [|a [|b [|c l]]]; simpl in *.
  - lia.
  - left. split; [lia|done].
  - right. exists a, b.
    inversion Hpieces as [|?? Ha Hb']; subst.
    inversion Hb' as [|?? Hb _]; subst. repeat split; done.
  - left. split; [lia|done].
Qed.

(** X13.  When [Variable(date_obj)] is built, the constructor of the node
    raises [AssertionError] unless the model name has exactly one dot; with
    one dot the name is [app_label.model_name], neither part holding a dot,
    and the constructor returns a node holding [get_model(app_label,
    model_name)], or raises [AssertionError] when there is no such
    model. *)
Theorem SimpleGencalNode_spec `{Django} (model field date_obj template : string)
    (var : template_variable) :
  new_variable date_obj = TOk var →
  (str_count dot model ≠ 1%nat →
   SimpleGencalNode model field date_obj template
   = TErr (Python AssertionError))
  ∧ (str_count dot model = 1%nat →
     ∃ app_label model_name,
       model = (app_label ++ String dot model_name)%string
       ∧ str_count dot app_label = 0%nat
       ∧ str_count dot model_name = 0%nat
       ∧ SimpleGencalNode model field date_obj template
         = match get_model app_label model_name with
           | Some m => TOk (mk_node field (Unresolved var) template m)
           | None => TErr (Python AssertionError)
           end).
Proof.
  intros Hvar.
  destruct (SimpleGencalNode_spec_cases model field date_obj template var
              Hvar) as [[Hc Herr]|(a & b & -> & Ha & Hb & Hnode)].
  - split; [done|]. intros; lia.
  - split; [|intros _; by exists a, b].
    intros Hc. exfalso. apply Hc. clear Hnode.
    induction a as [|c a IH]; simpl in *.
    + lia.
    + destruct (Ascii.eqb c dot); [lia|]. by apply IH.
Qed.

Lemma SimpleGencalNode_spec_witness :
  (str_count dot "event.Event" ≠ 1%nat →
   SimpleGencalNode "event.Event" "day" "date" "gencal/gencal.html"
   = TErr (Python AssertionError))
  ∧ (str_count dot "event.Event" = 1%nat →
     ∃ app_label model_name,
       "event.Event"%string = (app_label ++ String dot model_name)%string
       ∧ str_count dot app_label = 0%nat
       ∧ str_count dot model_name = 0%nat
       ∧ SimpleGencalNode "event.Event" "day" "date" "gencal/gencal.html"
         = match get_model app_label model_name with
           | Some m =>
               TOk (mk_node "day" (@Unresolved sample_django "date"%string)
                      "gencal/gencal.html" m)
           | None => TErr (Python AssertionError)
           end).
Proof.
  apply (@SimpleGencalNode_spec sample_django "event.Event" "day" "date"
           "gencal/gencal.html" "date"%string).
  reflexivity.
Defined.

(** X14.  A node returned by [simple_gencal] comes from an accepted tag:
    its field is the 5th word, its template the 9th word or
    ['gencal/gencal.html'], its date the still unresolved variable named by
    the 7th word or ['date'], and its model the one [get_model] finds for
    the two parts of the 3rd word. *)
Theorem simple_gencal_node `{Django} (bits : list string) (n : node) :
  simple_gencal bits = TOk n →
  accepted bits
  ∧ node_field n = nth 4 bits EmptyString
  ∧ node_template n = default "gencal/gencal.html"%string (bits !! 8%nat)
  ∧ (∃ var, new_variable (default "date"%string (bits !! 6%nat)) = TOk var
            ∧ node_date_obj n = Unresolved var)
  ∧ ∃ app_label model_name,
      nth 2 bits EmptyString = (app_label ++ String dot model_name)%string
      ∧ str_count dot app_label = 0%nat ∧ str_count dot model_name = 0%nat
      ∧ get_model app_label model_name = Some (node_model n).
Proof.
  intros Hn. unfold simple_gencal in Hn.
  destruct (simple_gencal_args_cases bits) as [[Ha Hargs]|[_ Hargs]];
    rewrite Hargs in Hn; [|done].
  split; [done|]. simpl in Hn.
  destruct (new_variable (default "date"%string (bits !! 6%nat)))
    as [var|] eqn:Hvar; [|by unfold SimpleGencalNode in Hn; rewrite Hvar in Hn].
  destruct (SimpleGencalNode_spec_cases (nth 2 bits EmptyString)
              (nth 4 bits EmptyString) _
              (default "gencal/gencal.html"%string (bits !! 8%nat)) var Hvar)
    as [[_ Herr]|(app_label & model_name & Hmodel & Ha0 & Hm0 & Hnode)].
  { by rewrite Herr in Hn. }
  rewrite Hnode in Hn.
  destruct (get_model app_label model_name) as [m|] eqn:Hm; [|done].
  injection Hn as <-. simpl.
  split; [done|]. split; [done|]. split; [by exists var|].
  by exists app_label, model_name.
Qed.

Lemma simple_gencal_node_witness :
  ∃ n : @node sample_django,
    simple_gencal ["simple_gencal"; "for"; "event.Event"; "on"; "day"; "in";
                   "today"]%string = TOk n
  ∧ accepted ["simple_gencal"; "for"; "event.Event"; "on"; "day"; "in";
              "today"]%string
  ∧ node_field n
    = nth 4 ["simple_gencal"; "for"; "event.Event"; "on"; "day"; "in";
             "today"]%string EmptyString
  ∧ node_template n
    = default "gencal/gencal.html"%string
        (["simple_gencal"; "for"; "event.Event"; "on"; "day"; "in";
          "today"]%string !! 8%nat)
  ∧ (∃ var,
       new_variable
         (default "date"%string
            (["simple_gencal"; "for"; "event.Event"; "on"; "day"; "in";
              "today"]%string !! 6%nat)) = TOk var
       ∧ node_date_obj n = Unresolved var)
  ∧ ∃ app_label model_name,
      nth 2 ["simple_gencal"; "for"; "event.Event"; "on"; "day"; "in";
             "today"]%string EmptyString
      = (app_label ++ String dot model_name)%string
      ∧ str_count dot app_label = 0%nat ∧ str_count dot model_name = 0%nat
      ∧ get_model app_label model_name = Some (node_model n).
Proof.
  eexists. split; [reflexivity|].
  apply (@simple_gencal_node sample_django
           ["simple_gencal"; "for"; "event.Event"; "on"; "day"; "in";
            "today"]%string).
  reflexivity.
Defined.


(** ** Rendering the node *)

Lemma item_of_lookups day title url :
  item_of day title url !! "day" = Some day
  ∧ item_of day title url !! "title" = Some title
  ∧ item_of day title url !! "url" = Some url
  ∧ item_of day title url !! "class" = Some (PyStr "").
Proof.
  unfold item_of. repeat split.
Qed.

Lemma grouped_item_of day title url :
  grouped (item_of day title url)
  = Some (mk_cal_event title url (PyStr "") day).
Proof.
  destruct (item_of_lookups day title url) as (Hd & Ht & Hu & Hc).
  unfold grouped. by rewrite Ht, Hu, Hc, Hd.
Qed.

Lemma event_key_item_of day title url :
  event_key (item_of day title url) = as_date day.
Proof.
  destruct (item_of_lookups day title url) as (Hd & _).
  unfold event_key. by rewrite Hd.
Qed.

Lemma cal_item_inv field row it :
  cal_item field row = TOk it →
  ∃ day title url,
    instance_attrs row !! field = Some day
    ∧ instance_unicode row = TOk title
    ∧ instance_get_absolute_url row = TOk url
    ∧ it = item_of day title url.
Proof.
  unfold cal_item, instance_getattr.
  destruct (instance_attrs row !! field) as [day|]; simpl; [|done].
  destruct (instance_unicode row) as [title|]; simpl; [|done].
  destruct (instance_get_absolute_url row) as [url|]; simpl; [|done].
  intros [= <-]. by exists day, title, url.
Qed.

Lemma tmapM_cons {A B} (f : A → tresult B) x l :
  tmapM f (x :: l)
  = match f x with
    | TOk y =>
        match tmapM f l with TOk ys => TOk (y :: ys) | TErr e => TErr e end
    | TErr e => TErr e
    end.
Proof. simpl. destruct (f x); [|done]. simpl. by destruct (tmapM f l). Qed.

Lemma tmapM_inv {A B} (f : A → tresult B) (l : list A) : ∀ ys,
  tmapM f l = TOk ys → Forall2 (λ x y, f x = TOk y) l ys.
Proof.
  induction l as [|x l IH]; intros ys.
  - simpl. intros [= <-]. constructor.
  - rewrite tmapM_cons. destruct (f x) as [y|] eqn:Hy; [|done].
    destruct (tmapM f l) as [ys'|]; [|done]. intros [= <-].
    constructor; [done|]. by apply IH.
Qed.

Lemma group_event_no_key_error it x :
  is_Some (grouped it) → group_event it = Err x →
  x = AttributeError ∨ x = ValueError ∨ x = OverflowError.
Proof.
  intros [ce Hce]. unfold grouped in Hce. unfold group_event, getitem, getattr.
  destruct (it !! "title"), (it !! "url"), (it !! "class"), (it !! "day")
    as [v|]; simpl in *; try done.
  destruct (as_date v) as [d|]; simpl; [|intros [= <-]; by left].
  destruct (new _ _ _) as [d'|] eqn:Hnew; simpl; [done|].
  apply new_error in Hnew. intros [= <-]. right; done.
Qed.

Lemma get_events_by_day_loop_no_key_error items : ∀ acc x,
  Forall (λ it, is_Some (grouped it)) items →
  get_events_by_day_loop acc items = Err x →
  x = AttributeError ∨ x = ValueError ∨ x = OverflowError.
Proof.
  induction items as [|it items IH]; intros acc x Hall; [done|].
  inversion Hall as [|?? Hit Hall']; subst.
  rewrite get_events_by_day_loop_cons.
  destruct (group_event it) as [[d ce]|y] eqn:Hg.
  - by apply IH.
  - intros [= <-]. by eapply group_event_no_key_error.
Qed.

(** X15.  The dictionaries [render] builds from the rows of the query have
    the four keys [gencal] reads: ['day'] is the date field of the row,
    ['title'] its [__unicode__()], ['url'] its [get_absolute_url()] and
    ['class'] the empty string.  Hence [get_events_by_day] never raises
    [KeyError] on them, only [AttributeError] (a date field without the
    attributes of a date) or the [ValueError] or [OverflowError] of the
    constructor of [datetime.date]. *)
Theorem render_cal_items (field : string) (event_set : list model_instance)
    (cal_items : list (gmap string pyval)) :
  tmapM (cal_item field) event_set = TOk cal_items →
  Forall2 (λ row it,
             ∃ day title url,
               instance_attrs row !! field = Some day
               ∧ instance_unicode row = TOk title
               ∧ instance_get_absolute_url row = TOk url
               ∧ it !! "day" = Some day ∧ it !! "title" = Some title
               ∧ it !! "url" = Some url ∧ it !! "class" = Some (PyStr ""))
          event_set cal_items
  ∧ ∀ x, get_events_by_day cal_items = Err x →
         x = AttributeError ∨ x = ValueError ∨ x = OverflowError.
Proof.
  intros Hitems%tmapM_inv.
  assert (Forall2 (λ row it, ∃ day title url,
             instance_attrs row !! field = Some day
             ∧ instance_unicode row = TOk title
             ∧ instance_get_absolute_url row = TOk url
             ∧ it = item_of day title url) event_set cal_items) as Hinv.
  { eapply Forall2_impl; [exact Hitems|]. intros row it. apply cal_item_inv. }
  split.
  - eapply Forall2_impl; [exact Hinv|].
    intros row it (day & title & url & Hd & Ht & Hu & ->).
    destruct (item_of_lookups day title url) as (? & ? & ? & ?).
    by exists day, title, url.
  - intros x. apply get_events_by_day_loop_no_key_error.
    clear Hitems. induction Hinv as [|row it rows its Hit _ IH];
      constructor; [|done].
    destruct Hit as (day & title & url & _ & _ & _ & ->).
    rewrite grouped_item_of. by eexists.
Qed.

Lemma render_cal_items_witness :
  ∃ cal_items, tmapM (cal_item "day") sample_rows = TOk cal_items ∧
  Forall2 (λ row it,
             ∃ day title url,
               instance_attrs row !! "day" = Some day
               ∧ instance_unicode row = TOk title
               ∧ instance_get_absolute_url row = TOk url
               ∧ it !! "day" = Some day ∧ it !! "title" = Some title
               ∧ it !! "url" = Some url ∧ it !! "class" = Some (PyStr ""))
          sample_rows cal_items
  ∧ ∀ x, get_events_by_day cal_items = Err x →
         x = AttributeError ∨ x = ValueError ∨ x = OverflowError.
Proof.
  eexists. split; [reflexivity|].
  apply (render_cal_items "day" sample_rows). reflexivity.
Defined.

(** X16.  A node renders once.  [render] stores the resolved value in
    [self.date_obj], where the constructor put the [Variable]: after a call
    in which [resolve] returned, every further [render] of the node raises
    [AttributeError] and leaves the node as it is.  When [resolve] raises,
    the node is unchanged. *)
Theorem render_once `{Django} (self : node) (var : template_variable)
    (context context' : render_context) :
  node_date_obj self = Unresolved var →
  (∀ e, resolve var context = TErr e → render self context = (self, TErr e))
  ∧ (∀ v, resolve var context = TOk v →
       node_date_obj (render self context).1 = Resolved v
       ∧ render (render self context).1 context'
         = ((render self context).1, TErr (Python AttributeError))).
Proof.
  intros Hslot. split.
  - intros e He. unfold render. by rewrite Hslot, He.
  - intros v Hv.
    assert ((render self context).1
            = mk_node (node_field self) (Resolved v) (node_template self)
                      (node_model self)) as ->
      by (unfold render; by rewrite Hslot, Hv).
    split; reflexivity.
Qed.

Lemma render_once_witness :
  (∀ e, resolve "date"%string
             ({[ "date" := PyDate (mkdate 2008 1 1) ]} : gmap string pyval)
        = TErr e →
        render (mk_node "day" (@Unresolved sample_django "date"%string)
                  "gencal/gencal.html" tt)
               ({[ "date" := PyDate (mkdate 2008 1 1) ]} : gmap string pyval)
        = (mk_node "day" (@Unresolved sample_django "date"%string)
                  "gencal/gencal.html" tt, TErr e))
  ∧ (∀ v, resolve "date"%string
               ({[ "date" := PyDate (mkdate 2008 1 1) ]} : gmap string pyval)
          = TOk v →
       node_date_obj
         (render (mk_node "day" (@Unresolved sample_django "date"%string)
                    "gencal/gencal.html" tt)
                 ({[ "date" := PyDate (mkdate 2008 1 1) ]} : gmap string pyval)).1
       = Resolved v
       ∧ render
           (render (mk_node "day" (@Unresolved sample_django "date"%string)
                      "gencal/gencal.html" tt)
                   ({[ "date" := PyDate (mkdate 2008 1 1) ]} : gmap string pyval)).1
           (∅ : gmap string pyval)
         = ((render (mk_node "day" (@Unresolved sample_django "date"%string)
                      "gencal/gencal.html" tt)
                   ({[ "date" := PyDate (mkdate 2008 1 1) ]} : gmap string pyval)).1,
            TErr (Python AttributeError))).
Proof.
  apply (@render_once sample_django
           (mk_node "day" (@Unresolved sample_django "date"%string)
              "gencal/gencal.html" tt) "date"%string).
  reflexivity.
Defined.

Lemma cal_item_row_ok field row :
  row_ok field row →
  ∃ v title url,
    instance_attrs row !! field = Some v
    ∧ instance_unicode row = TOk title
    ∧ instance_get_absolute_url row = TOk url
    ∧ cal_item field row = TOk (item_of v title url)
    ∧ well_formed_event (item_of v title url).
Proof.
  intros (v & d & title & url & Hv & Hd & Hvalid & Ht & Hu).
  exists v, title, url. do 3 (split; [done|]). split; [|split].
  - unfold cal_item, instance_getattr. by rewrite Hv, Ht, Hu.
  - exists d. by rewrite event_key_item_of.
  - rewrite grouped_item_of. by eexists.
Qed.

Lemma tmapM_rows_ok field (event_set : list model_instance) :
  Forall (row_ok field) event_set →
  ∃ cal_items,
    tmapM (cal_item field) event_set = TOk cal_items
    ∧ Forall well_formed_event cal_items
    ∧ ∀ row v title url,
        row ∈ event_set → instance_attrs row !! field = Some v →
        instance_unicode row = TOk title →
        instance_get_absolute_url row = TOk url →
        item_of v title url ∈ cal_items.
Proof.
  induction 1 as [|row rows Hrow _ (items & Hitems & Hwf & Hin)].
  - exists []. repeat split; [constructor|]. by intros ???? ?%elem_of_nil.
  - destruct (cal_item_row_ok field row Hrow)
      as (v & title & url & Hv & Ht & Hu & Hitem & Hwfi).
    exists (item_of v title url :: items).
    rewrite tmapM_cons, Hitem, Hitems. repeat split; [by constructor|].
    intros row' v' title' url' [->|Hrow']%elem_of_cons Hv' Ht' Hu'.
    + assert (v' = v) as -> by congruence.
      assert (title' = title) as -> by congruence.
      assert (url' = url) as -> by congruence. by left.
    + right. by eapply Hin.
Qed.

(** X17.  When the variable resolves to a date of a supported month and
    every row the query returns has a valid date in the date field, [render]
    returns what the template renders from the dictionary of [gencal], in
    which every row whose date is the date of a cell is among the events of
    that cell, with its [__unicode__()] as title, its [get_absolute_url()]
    as url, the empty class and the value of its date field as
    timestamp. *)
Theorem render_shows_rows `{Django} (self : node) (var : template_variable)
    (context : render_context) (date : pyval) (d : Datetime.date)
    (event_set : list model_instance) :
  node_date_obj self = Unresolved var →
  resolve var context = TOk date →
  as_date date = Some d →
  supported (year d) (month d) →
  manager_filter (node_model self)
    (<[(node_field self ++ "__month")%string := PyInt (month d)]>
       (<[(node_field self ++ "__year")%string := PyInt (year d)]> ∅))
  = TOk event_set →
  Forall (row_ok (node_field self)) event_set →
  ∃ cal_items out,
    tmapM (cal_item (node_field self)) event_set = TOk cal_items
    ∧ gencal date cal_items = Ok out
    ∧ (render self context).2 = render_template (node_template self) out
    ∧ ∀ week c row v title url,
        week ∈ month_cal out → c ∈ week → row ∈ event_set →
        instance_attrs row !! node_field self = Some v →
        as_date v = Some (Gencal.day c) →
        instance_unicode row = TOk title →
        instance_get_absolute_url row = TOk url →
        mk_cal_event title url (PyStr "") v ∈ event c.
Proof.
  intros Hslot Hres Hd Hs Hfilter Hrows.
  destruct (tmapM_rows_ok _ _ Hrows) as (items & Hitems & Hwf & Hin).
  destruct (get_events_by_day_ok items Hwf) as (ebd & Hev & _).
  pose proof (gencal_ok date d items ebd Hd Hs Hev) as Hout.
  exists items, (gencal_context date d ebd).
  split; [done|]. split; [done|]. split.
  - unfold render. rewrite Hslot, Hres. simpl.
    rewrite !(getattr_as_date _ _ _ Hd). simpl.
    rewrite Hfilter. simpl. rewrite Hitems. simpl. by rewrite Hout.
  - intros week c row v title url Hweek Hc Hrow Hv Hdate Ht Hu.
    destruct (gencal_cell_events _ _ _ Hout week c Hweek Hc) as [_ Hcell].
    destruct (item_of_lookups v title url) as (Hday & _).
    destruct (Hcell (item_of v title url) v (Hin _ _ _ _ Hrow Hv Ht Hu)
                Hday Hdate) as (ce & Hce & Hce_in & _).
    rewrite grouped_item_of in Hce. by injection Hce as <-.
Qed.

Lemma render_shows_rows_witness :
  ∃ cal_items out,
    tmapM (cal_item "day") sample_rows = TOk cal_items
    ∧ gencal (PyDate (mkdate 2008 1 1)) cal_items = Ok out
    ∧ (render (mk_node "day" (@Unresolved sample_django "date"%string)
                 "gencal/gencal.html" tt)
              ({[ "date" := PyDate (mkdate 2008 1 1) ]} : gmap string pyval)).2
      = render_template "gencal/gencal.html" out
    ∧ ∀ week c row v title url,
        week ∈ month_cal out → c ∈ week → row ∈ sample_rows →
        instance_attrs row !! "day" = Some v →
        as_date v = Some (Gencal.day c) →
        instance_unicode row = TOk title →
        instance_get_absolute_url row = TOk url →
        mk_cal_event title url (PyStr "") v ∈ event c.
Proof.
  apply (@render_shows_rows sample_django
           (mk_node "day" (@Unresolved sample_django "date"%string)
              "gencal/gencal.html" tt)
           "date"%string
           ({[ "date" := PyDate (mkdate 2008 1 1) ]} : gmap string pyval)
           (PyDate (mkdate 2008 1 1)) (mkdate 2008 1 1) sample_rows).
  - reflexivity.
  - reflexivity.
  - reflexivity.
  - closed_arith.
  - reflexivity.
  - repeat constructor.
    + exists (PyDateTime (mkdate 2008 1 30) 14 0 0 0), (mkdate 2008 1 30),
        (PyStr "Concert"), (PyStr "/foo/2").
      repeat split; closed_arith.
    + exists (PyDate (mkdate 2008 1 5)), (mkdate 2008 1 5),
        (PyStr "BBQ"), PyNone.
      repeat split; closed_arith.
Defined.

